(** * youngsphere: progress ranking queries and redirect middleware

    A shallow embedding of
    - [openedx/core/djangoapps/youngsphere/progress/models.py]
      ([StudentProgress] class methods and
      [CourseModuleCompletion.get_actual_completions]), and
    - [openedx/core/djangoapps/youngsphere/sites/middleware.py]
      ([CustomDomainsRedirectMiddleware] and [RedirectMiddleware]).

    Database tables are finite lists (or finite maps keyed by primary key),
    a queryset is the list of rows its SQL would return (joins against a
    multi-valued relation repeat a row once per matching related row), and
    Python exceptions are an explicit error result. *)

From Stdlib Require Import ZArith.
From stdpp Require Import prelude strings sorting gmap.

(** ** Python exceptions and fallible results *)

Inductive exn : Set :=
  | ValueError
  | TypeError
  | AttributeError
  | AssertionError
  | DoesNotExist
  | MultipleObjectsReturned.

Global Instance exn_eq_dec : EqDecision exn.
Proof. solve_decision. Defined.

Inductive result (A : Type) : Type :=
  | Ok (a : A)
  | Raise (e : exn).
Global Arguments Ok {A} a.
Global Arguments Raise {A} e.

Definition bind {A B} (m : result A) (k : A → result B) : result B :=
  match m with
  | Ok a => k a
  | Raise e => Raise e
  end.

Notation "'do' x <- m ; k" := (bind m (λ x, k))
  (at level 10, x name, m at level 100, k at level 200).

(** ** Tables *)

Record UserProfile := {
  title : option string;
  profile_image_uploaded_at : option Z
}.

(** A row of [auth_user]; the primary key is the key of the table map.
    [organizations] and [groups] list the rows of the two many-to-many
    tables that point at this user. *)
Record User := {
  username : string;
  is_active : bool;
  profile : option UserProfile;
  organizations : list Z;
  groups : list Z
}.

Record CourseEnrollment := {
  ce_user : Z;
  ce_course_id : string;
  ce_is_active : bool
}.

Record StudentProgress := {
  pk : Z;
  user : Z;
  course_id : string;
  completions : Z;
  created : Z;
  modified : Z
}.

Global Instance UserProfile_eq_dec : EqDecision UserProfile.
Proof. solve_decision. Defined.
Global Instance User_eq_dec : EqDecision User.
Proof. solve_decision. Defined.
Global Instance CourseEnrollment_eq_dec : EqDecision CourseEnrollment.
Proof. solve_decision. Defined.
Global Instance StudentProgress_eq_dec : EqDecision StudentProgress.
Proof. solve_decision. Defined.

Record Database := {
  auth_user : gmap Z User;
  student_courseenrollment : list CourseEnrollment;
  progress_studentprogress : list StudentProgress
}.

(** [Meta.unique_together = (('user', 'course_id'),)] *)
Definition unique_together (db : Database) : Prop :=
  NoDup ((λ r, (user r, course_id r)) <$> progress_studentprogress db).

(** ** Querysets *)

(** A result row of a query on [StudentProgress] that follows the [user]
    foreign key: the progress row and the user row it joins. *)
Definition Row : Type := StudentProgress * User.

Definition sum_completions (l : list Z) : Z := foldr Z.add 0%Z l.

(** [cls.objects] with the inner join on [auth_user]. *)
Definition join_user (db : Database) (r : StudentProgress) : list Row :=
  match auth_user db !! user r with
  | Some u => [(r, u)]
  | None => []
  end.

(** Inner join on the enrollments of the row's user: one copy of the row per
    enrollment that is active and for [course_key]. *)
Definition join_courseenrollment (db : Database) (course_key : string)
    (row : Row) : list Row :=
  (λ _, row) <$>
    filter (λ e, ce_user e = user row.1 ∧ ce_is_active e = true
                 ∧ ce_course_id e = course_key)
           (student_courseenrollment db).

(** [user__is_active=True] *)
Definition where_user_is_active (row : Row) : list Row :=
  if is_active row.2 then [row] else [].

(** [cls.objects.filter(course_id__exact=course_key, user__is_active=True,
      user__courseenrollment__is_active=True,
      user__courseenrollment__course_id__exact=course_key)] *)
Definition filter_enrolled (db : Database) (course_key : string) : list Row :=
  let rows := filter (λ r, course_id r = course_key)
                     (progress_studentprogress db) in
  let rows := rows ≫= join_user db in
  let rows := rows ≫= where_user_is_active in
  rows ≫= join_courseenrollment db course_key.

(** [.exclude(user__id__in=exclude_users)]: the query builder rejects [None]
    as the value of an [in] lookup ("Cannot use None as a query value"). *)
Definition exclude_user_id_in (exclude_users : option (list Z))
    (qs : list Row) : result (list Row) :=
  match exclude_users with
  | None => Raise ValueError
  | Some ids => Ok (filter (λ row, user row.1 ∉ ids) qs)
  end.

(** Truth value of an optional list argument: [None] and [[]] are false. *)
Definition truthy {A} (arg : option (list A)) : bool :=
  match arg with
  | Some (_ :: _) => true
  | _ => false
  end.

Definition ids_of (arg : option (list Z)) : list Z := default [] arg.

(** [.filter(user__organizations__in=org_ids)]: inner join on the user's
    organization memberships, one copy per membership in [org_ids]. *)
Definition filter_organizations_in (org_ids : list Z) (qs : list Row)
    : list Row :=
  qs ≫= (λ row : Row,
           (λ _, row) <$> filter (λ o, o ∈ org_ids) (organizations row.2)).

(** [.filter(user__groups__in=group_ids)] *)
Definition filter_groups_in (group_ids : list Z) (qs : list Row) : list Row :=
  qs ≫= (λ row : Row,
           (λ _, row) <$> filter (λ g, g ∈ group_ids) (groups row.2)).

(** Evaluating a queryset of model instances: the selected columns are those of
    [StudentProgress]; [.distinct()] makes it a [SELECT DISTINCT]. *)
Definition instances (distinct : bool) (qs : list Row) : list StudentProgress :=
  if distinct then remove_dups (fst <$> qs) else fst <$> qs.

(** ** [StudentProgress] class methods *)

Definition get_total_completions (db : Database) (course_key : string)
    (exclude_users org_ids group_ids : option (list Z)) : result Z :=
  do queryset <- exclude_user_id_in exclude_users (filter_enrolled db course_key);
  let queryset :=
    if truthy org_ids then filter_organizations_in (ids_of org_ids) queryset
    else queryset in
  let queryset :=
    if truthy group_ids
    then instances true (filter_groups_in (ids_of group_ids) queryset)
    else instances false queryset in
  Ok (sum_completions (completions <$> queryset)).

Definition get_num_users_started (db : Database) (course_key : string)
    (exclude_users org_ids group_ids : option (list Z)) : result Z :=
  do queryset <- exclude_user_id_in exclude_users (filter_enrolled db course_key);
  let queryset :=
    if truthy org_ids then filter_organizations_in (ids_of org_ids) queryset
    else queryset in
  let queryset :=
    if truthy group_ids then filter_groups_in (ids_of group_ids) queryset
    else queryset in
  Ok (Z.of_nat (length (instances true queryset))).

Record PositionData := {
  data_completions : Z;
  data_position : Z
}.

Global Instance PositionData_eq_dec : EqDecision PositionData.
Proof. solve_decision. Defined.

(** [cls.objects.get(course_id__exact=course_key, user__id=user_id)] *)
Definition objects_get (db : Database) (course_key : string) (user_id : Z)
    : result StudentProgress :=
  match filter (λ r, course_id r = course_key ∧ user r = user_id)
               (progress_studentprogress db) with
  | [] => Raise DoesNotExist
  | [r] => Ok r
  | _ => Raise MultipleObjectsReturned
  end.

(** [Q(completions__gt=user_completions) |
     Q(completions=user_completions, modified__lt=user_time_completed)] *)
Definition above (user_completions user_time_completed : Z)
    (r : StudentProgress) : Prop :=
  (user_completions < completions r)%Z
  ∨ (completions r = user_completions ∧ (modified r < user_time_completed)%Z).

Global Instance above_dec c t r : Decision (above c t r).
Proof. unfold above. apply _. Defined.

Definition get_user_position (db : Database) (course_key : string)
    (user_id : Z) (exclude_users : option (list Z)) : result PositionData :=
  let data := {| data_completions := 0; data_position := 0 |} in
  do queryset <-
    match objects_get db course_key user_id with
    | Ok r => Ok (Some r)
    | Raise DoesNotExist => Ok None
    | Raise e => Raise e
    end;
  match queryset with
  | Some row =>
      let user_completions := completions row in
      let user_time_completed := modified row in
      do candidates <-
        exclude_user_id_in exclude_users
          ((filter (λ r, above user_completions user_time_completed r
                         ∧ course_id r = course_key)
                   (progress_studentprogress db)
              ≫= join_user db)
             ≫= where_user_is_active);
      let users_above := Z.of_nat (length candidates) in
      Ok {| data_completions := user_completions;
            data_position := users_above + 1 |}
  | None => Ok data
  end.

(** One dictionary of the [.values(...)] queryset. *)
Record LeaderboardEntry := {
  user__id : Z;
  user__username : string;
  user__profile__title : option string;
  user__profile__profile_image_uploaded_at : option Z;
  entry_completions : Z
}.

Global Instance LeaderboardEntry_eq_dec : EqDecision LeaderboardEntry.
Proof. solve_decision. Defined.

(** The columns selected by [.values(...).order_by('-completions',
    'modified')]: the five named values, and [modified], which the ordering
    adds to the selected (and [DISTINCT]) columns.  The profile is reached by
    a left outer join. *)
Definition values (row : Row) : LeaderboardEntry * Z :=
  ({| user__id := user row.1;
      user__username := username row.2;
      user__profile__title := profile row.2 ≫= title;
      user__profile__profile_image_uploaded_at :=
        profile row.2 ≫= profile_image_uploaded_at;
      entry_completions := completions row.1 |},
   modified row.1).

(** [order_by('-completions', 'modified')] *)
Definition order_by (x y : LeaderboardEntry * Z) : Prop :=
  (entry_completions y.1 < entry_completions x.1)%Z
  ∨ (entry_completions x.1 = entry_completions y.1 ∧ (x.2 ≤ y.2)%Z).

Global Instance order_by_dec : RelDecision order_by.
Proof. intros x y. unfold order_by. apply _. Defined.

Global Instance order_by_total : Total order_by.
Proof. intros x y. unfold order_by. lia. Qed.

Global Instance order_by_trans : Transitive order_by.
Proof. intros x y z. unfold order_by. lia. Qed.

(** [queryset[:count]]; a negative stop is refused by the queryset
    ("Negative indexing is not supported."). *)
Definition slice {A} (count : option Z) (l : list A) : result (list A) :=
  match count with
  | None => Ok l
  | Some n => if decide (n < 0)%Z then Raise AssertionError
              else Ok (take (Z.to_nat n) l)
  end.

Definition generate_leaderboard (db : Database) (course_key : string)
    (count : option Z) (exclude_users org_ids group_ids : option (list Z))
    : result (list LeaderboardEntry) :=
  do queryset <- exclude_user_id_in exclude_users (filter_enrolled db course_key);
  let queryset :=
    if truthy org_ids then filter_organizations_in (ids_of org_ids) queryset
    else queryset in
  let queryset := values <$>
    (if truthy group_ids then filter_groups_in (ids_of group_ids) queryset
     else queryset) in
  let queryset := if truthy group_ids then remove_dups queryset else queryset in
  do queryset <- slice count (merge_sort order_by queryset);
  Ok (fst <$> queryset).

(** ** [CourseModuleCompletion] *)

Record CourseModuleCompletion := {
  cmc_user : Z;
  cmc_course_id : string;
  content_id : string;
  stage : option string
}.

(** The [Q] objects built by [get_actual_completions]. *)
Inductive Q : Set :=
  | Q_content_id__contains (item : string)
  | Q_or (a b : Q).

(** [needle in haystack] on strings. *)
Fixpoint contains (needle haystack : string) : bool :=
  String.prefix needle haystack
  || match haystack with
     | EmptyString => false
     | String _ rest => contains needle rest
     end.

Fixpoint Q_holds (q : Q) (c : CourseModuleCompletion) : bool :=
  match q with
  | Q_content_id__contains item => contains item (content_id c)
  | Q_or a b => Q_holds a c || Q_holds b c
  end.

Fixpoint lstrip (s : string) : string :=
  match s with
  | String a rest => if Ascii.is_space a then lstrip rest else s
  | EmptyString => EmptyString
  end.

(** [str.strip()] *)
Definition strip (s : string) : string :=
  String.rev (lstrip (String.rev (lstrip s))).

(** The builtin [reduce(function, sequence)] without an initial value. *)
Definition reduce {A} (f : A → A → A) (l : list A) : result A :=
  match l with
  | [] => Raise TypeError
  | x :: rest => Ok (foldl f x rest)
  end.

(** [PROGRESS_DETACHED_CATEGORIES] is [None] when the setting is not
    defined. *)
Definition get_actual_completions
    (PROGRESS_DETACHED_CATEGORIES : option (list string))
    (objects : list CourseModuleCompletion)
    : result (list CourseModuleCompletion) :=
  let detached_categories := default [] PROGRESS_DETACHED_CATEGORIES in
  let cat_list :=
    (λ item, Q_content_id__contains (strip item)) <$> detached_categories in
  do cat_list <- reduce Q_or cat_list;
  Ok (filter (λ c, Q_holds cat_list c = false) objects).

(** ** Middleware: settings, requests, caches *)

(** Values a setting may hold. *)
Inductive pyobj : Set :=
  | PyNone
  | PyInt (n : Z)
  | PyStr (s : string).

(** Modelled from the spec: the project's settings module is not part of the
    sources; each setting the middleware reads is a field.  The settings read
    inside the [try] block of [RedirectMiddleware] may be undefined
    ([None]). *)
Record Settings := {
  SITE_NAME : string;
  CUSTOM_DOMAINS_REDIRECT_CACHE_KEY_PREFIX : string;
  CUSTOM_DOMAINS_REDIRECT_CACHE_TIMEOUT : option Z;
  MAIN_SITE_REDIRECT_WHITELIST : option (list pyobj);
  SITE_ID : option Z;
  REDIRECT_CACHE_KEY_PREFIX : string;
  REDIRECT_CACHE_TIMEOUT : option Z
}.

Record Site := {
  site_id : Z;
  domain : string
}.

Record HttpRequest := {
  get_host : string;
  path : string;
  site : option Site
}.

(** [django.contrib.redirects.models.Redirect] *)
Record Redirect := {
  redirect_site : Z;
  old_path : string;
  new_path : string
}.

Inductive HttpResponse : Set :=
  | HttpResponseRedirect (url : string)
  | HttpResponsePermanentRedirect (url : string).

(** What the middleware does to the outside world. *)
Inductive Event : Set :=
  | CacheGet (alias key : string)
  | CacheSet (alias key : string)
  | QueryAlternativeDomain (hostname : string)
  | QueryRedirect (site_pk : Z).

(** A cache entry and the time at which it expires ([None]: never). *)
Record Entry (V : Type) := {
  entry_value : V;
  entry_expires : option Z
}.
Global Arguments entry_value {V} _.
Global Arguments entry_expires {V} _.

Definition live {V} (now : Z) (e : Entry V) : Prop :=
  match entry_expires e with
  | None => True
  | Some t => (now < t)%Z
  end.

Global Instance live_dec {V} now (e : Entry V) : Decision (live now e).
Proof. unfold live. destruct (entry_expires e); apply _. Defined.

(** The two caches the middleware uses ([caches['general']] and the default
    [cache]) and the trace of cache and table accesses, latest last. *)
Record World := {
  general : gmap string (Entry string);
  default_cache : gmap string (Entry (gmap string string));
  trace : list Event
}.

(** Stateful computations that may raise. *)
Definition M (A : Type) : Type := World → result A * World.

Definition ret {A} (a : A) : M A := λ w, (Ok a, w).
Definition throw {A} (e : exn) : M A := λ w, (Raise e, w).
Definition bindM {A B} (m : M A) (k : A → M B) : M B :=
  λ w, match m w with
       | (Ok a, w') => k a w'
       | (Raise e, w') => (Raise e, w')
       end.
(** [try: body except Exception: handler] *)
Definition try_except {A} (body : M A) (handler : M A) : M A :=
  λ w, match body w with
       | (Ok a, w') => (Ok a, w')
       | (Raise _, w') => handler w'
       end.
Definition emit (ev : Event) : M unit :=
  λ w, (Ok tt, {| general := general w; default_cache := default_cache w;
                  trace := trace w ++ [ev] |}).

Notation "'run' x <- m ; k" := (bindM m (λ x, k))
  (at level 10, x name, m at level 100, k at level 200).

Definition lookup_live {V} (now : Z) (key : string)
    (store : gmap string (Entry V)) : option V :=
  match store !! key with
  | Some e => if decide (live now e) then Some (entry_value e) else None
  | None => None
  end.

Definition expiry (now : Z) (timeout : option Z) : option Z :=
  (λ t, now + t)%Z <$> timeout.

(** [cache_general.get(key)] *)
Definition general_get (now : Z) (key : string) : M (option string) :=
  run _ <- emit (CacheGet "general" key);
  λ w, (Ok (lookup_live now key (general w)), w).

(** [cache_general.set(key, value, timeout)] *)
Definition general_set (now : Z) (key value : string) (timeout : option Z)
    : M unit :=
  run _ <- emit (CacheSet "general" key);
  λ w, (Ok tt,
        {| general := <[key := {| entry_value := value;
                                  entry_expires := expiry now timeout |}]>
                        (general w);
           default_cache := default_cache w;
           trace := trace w |}).

(** [cache.get(key)] *)
Definition cache_get (now : Z) (key : string)
    : M (option (gmap string string)) :=
  run _ <- emit (CacheGet "default" key);
  λ w, (Ok (lookup_live now key (default_cache w)), w).

(** [cache.set(key, value, timeout)] *)
Definition cache_set (now : Z) (key : string) (value : gmap string string)
    (timeout : option Z) : M unit :=
  run _ <- emit (CacheSet "default" key);
  λ w, (Ok tt,
        {| general := general w;
           default_cache := <[key := {| entry_value := value;
                                        entry_expires := expiry now timeout |}]>
                              (default_cache w);
           trace := trace w |}).

(** [str.endswith] *)
Definition endswith (s suffix : string) : bool :=
  String.prefix (String.rev suffix) (String.rev s).

(** ['{prefix}-{site}'.format(prefix=..., site=...)] *)
Definition format_cache_key (prefix site : string) : string :=
  prefix +:+ "-" +:+ site.

(** Truth value of a string. *)
Definition nonempty (s : string) : bool :=
  match s with
  | EmptyString => false
  | String _ _ => true
  end.

Module CustomDomainsRedirectMiddleware.

(** Modelled from the spec: [sites/models.py] is not part of the sources.
    [AlternativeDomain] is a one-to-one mapping from a hostname to a site;
    the table is the finite map from [domain] to the mapped site's own
    [domain].  [.select_related('site').get(domain=hostname)] is one query
    and raises [DoesNotExist] when the hostname is not a key. *)
Definition objects_get (AlternativeDomain : gmap string string)
    (hostname : string) : M string :=
  run _ <- emit (QueryAlternativeDomain hostname);
  match AlternativeDomain !! hostname with
  | Some site_domain => ret site_domain
  | None => throw DoesNotExist
  end.

(** [now] is the time at which the request is handled; the result is the
    response, or [None] to let the request through. *)
Definition process_request (settings : Settings)
    (AlternativeDomain : gmap string string) (now : Z)
    (request : HttpRequest) : M (option HttpResponse) :=
  let hostname := get_host request in
  if endswith hostname (SITE_NAME settings) then
    let cache_key :=
      format_cache_key (CUSTOM_DOMAINS_REDIRECT_CACHE_KEY_PREFIX settings)
                       hostname in
    run custom_domain <- general_get now cache_key;
    run custom_domain <-
      match custom_domain with
      | None =>
          run custom_domain <-
            try_except (objects_get AlternativeDomain hostname) (ret EmptyString);
          run _ <- general_set now cache_key custom_domain
                 (CUSTOM_DOMAINS_REDIRECT_CACHE_TIMEOUT settings);
          ret custom_domain
      | Some custom_domain => ret custom_domain
      end;
    if nonempty custom_domain
    then ret (Some (HttpResponseRedirect ("https://" +:+ custom_domain)))
    else ret None
  else ret None.

End CustomDomainsRedirectMiddleware.

Module RedirectMiddleware.

(** [p in request.path] for a whitelist entry [p]. *)
Definition in_path (request : HttpRequest) (p : pyobj) : result bool :=
  match p with
  | PyStr s => Ok (contains s (path request))
  | _ => Raise TypeError
  end.

(** [map(f, sequence)] builds the whole list before [any] looks at it. *)
Fixpoint map_result {A B} (f : A → result B) (l : list A)
    : result (list B) :=
  match l with
  | [] => Ok []
  | x :: rest =>
      do y <- f x;
      do ys <- map_result f rest;
      Ok (y :: ys)
  end.

Definition any (l : list bool) : bool := existsb (λ b, b) l.

Definition getattr {A} (attr : option A) : result A :=
  match attr with
  | Some a => Ok a
  | None => Raise AttributeError
  end.

(** The body of the [try] block: [Ok true] when it reaches the redirect to
    the admin site. *)
Definition main_site_policy (settings : Settings) (request : HttpRequest)
    : result bool :=
  do whitelist <- getattr (MAIN_SITE_REDIRECT_WHITELIST settings);
  do hits <- map_result (in_path request) whitelist;
  let in_whitelist := any hits in
  do site <- getattr (site request);
  do main <- getattr (SITE_ID settings);
  Ok (bool_decide (site_id site = main) && negb in_whitelist).

(** [{redirect.old_path: redirect.new_path for redirect in
     Redirect.objects.filter(site=site)}] *)
Definition redirects_of (table : list Redirect) (site : Site)
    : gmap string string :=
  foldl (λ d r, <[old_path r := new_path r]> d) ∅
        (filter (λ r, redirect_site r = site_id site) table).

Definition lift {A} (r : result A) : M A := λ w, (r, w).

(** Lines 55 to 62: the lookup of the request path among the site's
    redirects.  The response stands for the call
    [redirect(redirect_to, permanent=True)]: how [django.shortcuts.redirect]
    resolves its argument before it builds the response is not modelled. *)
Definition path_redirect (settings : Settings) (table : list Redirect)
    (now : Z) (request : HttpRequest) : M (option HttpResponse) :=
  run site <- lift (getattr (site request));
  let cache_key :=
    format_cache_key (REDIRECT_CACHE_KEY_PREFIX settings) (domain site) in
  run redirects <- cache_get now cache_key;
  run redirects <-
    match redirects with
    | None =>
        run _ <- emit (QueryRedirect (site_id site));
        let redirects := redirects_of table site in
        run _ <- cache_set now cache_key redirects
               (REDIRECT_CACHE_TIMEOUT settings);
        ret redirects
    | Some redirects => ret redirects
    end;
  match redirects !! path request with
  | Some redirect_to =>
      if nonempty redirect_to
      then ret (Some (HttpResponsePermanentRedirect redirect_to))
      else ret None
  | None => ret None
  end.

Definition admin_url : string := "https://youngsphere.com/admin/".

Definition process_request (settings : Settings) (table : list Redirect)
    (now : Z) (request : HttpRequest) : M (option HttpResponse) :=
  run decision <-
    try_except
      (run redirect_now <- lift (main_site_policy settings request);
       if (redirect_now : bool)
       then ret (Some (HttpResponseRedirect admin_url))
       else ret None)
      (ret None);
  match decision with
  | Some response => ret (Some response)
  | None => path_redirect settings table now request
  end.

End RedirectMiddleware.

(** ** The vocabulary of the specification *)

(** "Beats": higher [completions] wins outright; on a tie the row modified
    earlier wins. *)
Definition beats (r subject : StudentProgress) : Prop :=
  (completions subject < completions r)%Z
  ∨ (completions r = completions subject ∧ (modified r < modified subject)%Z).

Global Instance beats_dec r s : Decision (beats r s).
Proof. unfold beats. apply _. Defined.

(** Completions descending, then modified ascending. *)
Definition leaderboard_order (r1 r2 : StudentProgress) : Prop :=
  (completions r2 < completions r1)%Z
  ∨ (completions r1 = completions r2 ∧ (modified r1 ≤ modified r2)%Z).

Definition active (db : Database) (uid : Z) : Prop :=
  match auth_user db !! uid with
  | Some u => is_active u = true
  | None => False
  end.

Global Instance active_dec db uid : Decision (active db uid).
Proof. unfold active. destruct (auth_user db !! uid); apply _. Defined.

(** The user is currently enrolled in the course. *)
Definition enrolled (db : Database) (course_key : string) (uid : Z) : Prop :=
  Exists (λ e, ce_user e = uid ∧ ce_is_active e = true
               ∧ ce_course_id e = course_key)
         (student_courseenrollment db).

(** An optional restriction to the members of some organizations or groups:
    absent or empty means no restriction. *)
Definition restricted_to (ids : option (list Z)) (memberships : list Z)
    : Prop :=
  match ids with
  | None | Some [] => True
  | Some ids => Exists (λ m, m ∈ ids) memberships
  end.

Global Instance restricted_to_dec ids ms : Decision (restricted_to ids ms).
Proof. unfold restricted_to. destruct ids as [[|]|]; apply _. Defined.

(** The rows left by the filters that [get_total_completions],
    [get_num_users_started] and [generate_leaderboard] apply one after the
    other, for a given exclusion list. *)
Definition selected (db : Database) (course_key : string) (exclude : list Z)
    (org_ids group_ids : option (list Z)) : list Row :=
  let queryset := filter (λ row : Row, user row.1 ∉ exclude)
                         (filter_enrolled db course_key) in
  let queryset :=
    if truthy org_ids then filter_organizations_in (ids_of org_ids) queryset
    else queryset in
  if truthy group_ids then filter_groups_in (ids_of group_ids) queryset
  else queryset.

(** The filter predicate shared by the totals and the leaderboard. *)
Definition qualifies (db : Database) (course_key : string) (exclude : list Z)
    (org_ids group_ids : option (list Z)) (uid : Z) : Prop :=
  match auth_user db !! uid with
  | Some u =>
      is_active u = true ∧ enrolled db course_key uid ∧ (uid ∉ exclude)
      ∧ restricted_to org_ids (organizations u)
      ∧ restricted_to group_ids (groups u)
  | None => False
  end.

Global Instance qualifies_dec db key ex org grp uid :
  Decision (qualifies db key ex org grp uid).
Proof. unfold qualifies, enrolled. destruct (auth_user db !! uid); apply _. Defined.

Definition qualifying_summary (db : Database) (course_key : string)
    (exclude : list Z) (org_ids group_ids : option (list Z))
    (r : StudentProgress) : Prop :=
  r ∈ progress_studentprogress db ∧ course_id r = course_key
  ∧ qualifies db course_key exclude org_ids group_ids (user r).

(** The set of distinct users that qualify and have a summary for the
    course. *)
Definition qualifying_users (db : Database) (course_key : string)
    (exclude : list Z) (org_ids group_ids : option (list Z)) : list Z :=
  remove_dups
    (user <$> filter (λ r, course_id r = course_key
                           ∧ qualifies db course_key exclude org_ids group_ids
                               (user r))
                     (progress_studentprogress db)).

(** The completions stored for a user in a course (zero without a row). *)
Definition completions_of (db : Database) (course_key : string) (uid : Z) : Z :=
  match filter (λ r, course_id r = course_key ∧ user r = uid)
               (progress_studentprogress db) with
  | r :: _ => completions r
  | [] => 0%Z
  end.

(** The other active users, outside [exclude], whose summary for the course
    beats the subject's. *)
Definition users_beating (db : Database) (course_key : string)
    (exclude : list Z) (subject : StudentProgress) : list Z :=
  remove_dups
    (user <$> filter (λ r, course_id r = course_key
                           ∧ user r ≠ user subject
                           ∧ active db (user r)
                           ∧ (user r ∉ exclude)
                           ∧ beats r subject)
                     (progress_studentprogress db)).

(** The leaderboard entry of a summary row: user id, username, profile title,
    profile image timestamp and completions. *)
Definition summary_entry (db : Database) (r : StudentProgress)
    : LeaderboardEntry :=
  let u := auth_user db !! user r in
  {| user__id := user r;
     user__username := from_option username EmptyString u;
     user__profile__title := (u ≫= profile) ≫= title;
     user__profile__profile_image_uploaded_at :=
       (u ≫= profile) ≫= profile_image_uploaded_at;
     entry_completions := completions r |}.

(** [limit] entries of a list, all of them when the limit is absent. *)
Definition truncate {A} (limit : option Z) (l : list A) : list A :=
  match limit with
  | None => l
  | Some n => take (Z.to_nat n) l
  end.

(** ** Sample data

    The course of the specification's example: users 1 and 2 both have five
    completions, user 1 reached them first, user 3 has three. *)

Definition sample_user (name : string) (orgs grps : list Z) : User :=
  {| username := name;
     is_active := true;
     profile := Some {| title := Some "Engineer";
                        profile_image_uploaded_at := None |};
     organizations := orgs;
     groups := grps |}.

Definition summary_a : StudentProgress :=
  {| pk := 1; user := 1; course_id := "C"; completions := 5;
     created := 10; modified := 100 |}.
Definition summary_b : StudentProgress :=
  {| pk := 2; user := 2; course_id := "C"; completions := 5;
     created := 20; modified := 200 |}.
Definition summary_c : StudentProgress :=
  {| pk := 3; user := 3; course_id := "C"; completions := 3;
     created := 30; modified := 300 |}.

Definition sample_enrollment (uid : Z) : CourseEnrollment :=
  {| ce_user := uid; ce_course_id := "C"; ce_is_active := true |}.

Definition sample_db : Database :=
  {| auth_user :=
       <[1%Z := sample_user "a" [7; 8]%Z [10; 11]%Z]>
         (<[2%Z := sample_user "b" [7]%Z [10]%Z]>
            (<[3%Z := sample_user "c" [] []]> ∅));
     student_courseenrollment := sample_enrollment <$> [1; 2; 3]%Z;
     progress_studentprogress := [summary_c; summary_b; summary_a] |}.

Definition sample_settings : Settings :=
  {| SITE_NAME := "youngsphere.com";
     CUSTOM_DOMAINS_REDIRECT_CACHE_KEY_PREFIX := "custom-domain";
     CUSTOM_DOMAINS_REDIRECT_CACHE_TIMEOUT := Some 3600%Z;
     MAIN_SITE_REDIRECT_WHITELIST := None;
     SITE_ID := Some 1%Z;
     REDIRECT_CACHE_KEY_PREFIX := "redirects";
     REDIRECT_CACHE_TIMEOUT := Some 3600%Z |}.

Definition sample_domains : gmap string string :=
  <["learn.example.org" := "academy.example.org"]> ∅.

Definition sample_request (hostname : string) : HttpRequest :=
  {| get_host := hostname;
     path := "/courses";
     site := Some {| site_id := 2; domain := hostname |} |}.

Definition empty_world : World :=
  {| general := ∅; default_cache := ∅; trace := [] |}.

(** No query of the [AlternativeDomain] table for [hostname] between two
    states of the world. *)
Definition no_query (hostname : string) (before after : World) : Prop :=
  ∃ events, trace after = trace before ++ events
            ∧ QueryAlternativeDomain hostname ∉ events.

(** ** Further vocabulary *)

(** The number of rows [get_user_position] counts above a subject. *)
Definition users_above (db : Database) (course_key : string)
    (exclude : list Z) (subject : StudentProgress) : nat :=
  length (filter (λ r, (above (completions subject) (modified subject) r
                        ∧ course_id r = course_key)
                       ∧ active db (user r) ∧ user r ∉ exclude)
                 (progress_studentprogress db)).

(** How many times the joins of [get_total_completions] repeat a summary row
    when no group filter makes the queryset distinct: once per matching
    enrollment and, under an organization filter, per matching membership;
    not at all for an inactive, unknown or excluded user. *)
Definition copies (db : Database) (course_key : string) (exclude : list Z)
    (org_ids : option (list Z)) (r : StudentProgress) : nat :=
  match auth_user db !! user r with
  | Some u =>
      if is_active u then
        if decide (user r ∈ exclude) then 0
        else
          length (filter (λ e, ce_user e = user r ∧ ce_is_active e = true
                               ∧ ce_course_id e = course_key)
                         (student_courseenrollment db))
          * (if truthy org_ids
             then length (filter (λ o, o ∈ ids_of org_ids) (organizations u))
             else 1)
      else 0
  | None => 0
  end.

(** The summaries that [generate_leaderboard] lists, before the limit cuts
    the list: under a non-empty group filter, where the queryset is made
    distinct, each qualifying summary once; without one, each summary of the
    course once per row that the joins produce ([copies]). *)
Definition listed_summaries (db : Database) (course_key : string)
    (exclude : list Z) (org_ids group_ids : option (list Z))
    : list StudentProgress :=
  if truthy group_ids
  then filter (λ r, course_id r = course_key
                    ∧ qualifies db course_key exclude org_ids group_ids (user r))
              (progress_studentprogress db)
  else filter (λ r, course_id r = course_key) (progress_studentprogress db)
         ≫= (λ r, replicate (copies db course_key exclude org_ids r) r).

(** [needle] occurs somewhere inside [haystack]. *)
Definition occurs_in (needle haystack : string) : Prop :=
  ∃ before after, haystack = before +:+ needle +:+ after.

(** A string of whitespace only (possibly empty). *)
Fixpoint blank (s : string) : bool :=
  match s with
  | EmptyString => true
  | String a rest => Ascii.is_space a && blank rest
  end.

(** The whitelist is a list of strings, as the policy expects. *)
Fixpoint strings_of (whitelist : list pyobj) : option (list string) :=
  match whitelist with
  | [] => Some []
  | PyStr s :: rest => cons s <$> strings_of rest
  | _ :: _ => None
  end.

(** The response of [CustomDomainsRedirectMiddleware] for a resolved
    domain: a redirect over https, none for the empty string. *)
Definition redirect_to_domain (custom_domain : string) : option HttpResponse :=
  if nonempty custom_domain
  then Some (HttpResponseRedirect ("https://" +:+ custom_domain))
  else None.

(** The response of [RedirectMiddleware] for a request path and the site's
    mapping of old to new paths. *)
Definition redirect_to_path (redirects : gmap string string) (path : string)
    : option HttpResponse :=
  match redirects !! path with
  | Some redirect_to =>
      if nonempty redirect_to
      then Some (HttpResponsePermanentRedirect redirect_to)
      else None
  | None => None
  end.

(** ** Further sample data *)

(** A fourth user, tied with user 1 on completions and time. *)
Definition summary_d : StudentProgress :=
  {| pk := 4; user := 4; course_id := "C"; completions := 5;
     created := 40; modified := 100 |}.

Definition tied_db : Database :=
  {| auth_user := <[4%Z := sample_user "d" [] []]> (auth_user sample_db);
     student_courseenrollment := sample_enrollment <$> [1; 2; 3; 4]%Z;
     progress_studentprogress := [summary_c; summary_d; summary_b; summary_a] |}.

(** A table that breaks [unique_together]: two rows for user 1 and the
    course. *)
Definition duplicated_db : Database :=
  {| auth_user := auth_user sample_db;
     student_courseenrollment := student_courseenrollment sample_db;
     progress_studentprogress :=
       [summary_a;
        {| pk := 5; user := 1; course_id := "C"; completions := 2;
           created := 50; modified := 500 |}] |}.

Definition sample_completions : list CourseModuleCompletion :=
  [ {| cmc_user := 1; cmc_course_id := "C";
       content_id := "i4x://org/C/group-project/1"; stage := None |};
    {| cmc_user := 1; cmc_course_id := "C";
       content_id := "i4x://org/C/problem/1"; stage := None |} ].

Definition main_site_settings : Settings :=
  {| SITE_NAME := "youngsphere.com";
     CUSTOM_DOMAINS_REDIRECT_CACHE_KEY_PREFIX := "custom-domain";
     CUSTOM_DOMAINS_REDIRECT_CACHE_TIMEOUT := Some 3600%Z;
     MAIN_SITE_REDIRECT_WHITELIST := Some [PyStr "/admin"; PyStr "/login"];
     SITE_ID := Some 1%Z;
     REDIRECT_CACHE_KEY_PREFIX := "redirects";
     REDIRECT_CACHE_TIMEOUT := Some 3600%Z |}.

Definition main_site : Site := {| site_id := 1; domain := "youngsphere.com" |}.
Definition school_site : Site :=
  {| site_id := 2; domain := "school.youngsphere.com" |}.

Definition request_for (s : option Site) (p : string) : HttpRequest :=
  {| get_host := "school.youngsphere.com"; path := p; site := s |}.

Definition sample_rules : list Redirect :=
  [ {| redirect_site := 2; old_path := "/courses"; new_path := "/old" |};
    {| redirect_site := 2; old_path := "/courses"; new_path := "/catalog" |};
    {| redirect_site := 3; old_path := "/courses"; new_path := "/elsewhere" |} ].

(** * Proofs *)

(** ** Lists: sums, filters, duplicates, sorted lists *)

Section list_facts.
Context {A : Type}.

Lemma sum_completions_Permutation (l1 l2 : list Z) :
  l1 ≡ₚ l2 → sum_completions l1 = sum_completions l2.
Proof.
  induction 1 as [|x l l' _ IH|x y l|l l' l'' _ IH1 _ IH2]; simpl.
  - done.
  - by rewrite IH.
  - lia.
  - by rewrite IH1.
Qed.

Lemma remove_dups_NoDup `{EqDecision A} (l : list A) :
  NoDup l → remove_dups l = l.
Proof.
  induction 1 as [|x l Hx _ IH]; simpl; [done|].
  destruct (decide_rel (∈) x l); [done|by rewrite IH].
Qed.

Lemma filter_none (P : A → Prop) `{∀ x, Decision (P x)} (l : list A) :
  (∀ x, x ∈ l → ¬ P x) → filter P l = [].
Proof.
  induction l as [|y l IH]; intros Hl; [done|].
  rewrite filter_cons_False by (apply Hl; left).
  apply IH. intros x Hx. apply Hl. by right.
Qed.

Lemma filter_unique_key {K} `{EqDecision K} (key : A → K) (l : list A) x :
  NoDup (key <$> l) → x ∈ l → filter (λ y, key y = key x) l = [x].
Proof.
  induction l as [|y l IH]; intros Hnd Hx; [by apply elem_of_nil in Hx|].
  rewrite fmap_cons in Hnd. apply NoDup_cons in Hnd as [Hy Hnd].
  apply elem_of_cons in Hx as [->|Hx].
  - rewrite filter_cons_True by done. f_equal.
    apply filter_none. intros z Hz Heq. apply Hy. rewrite <- Heq.
    by apply list_elem_of_fmap_2.
  - rewrite filter_cons_False; [by apply IH|].
    intros Heq. apply Hy. rewrite Heq. by apply list_elem_of_fmap_2.
Qed.

Lemma filter_ext_elem_of (P Q : A → Prop) `{∀ x, Decision (P x)}
    `{∀ x, Decision (Q x)} (l : list A) :
  (∀ x, x ∈ l → P x ↔ Q x) → filter P l = filter Q l.
Proof.
  induction l as [|y l IH]; intros Hl; [done|].
  rewrite !filter_cons.
  assert (filter P l = filter Q l) as ->.
  { apply IH. intros x Hx. apply Hl. by right. }
  destruct (decide (P y)) as [HP|HP], (decide (Q y)) as [HQ|HQ]; try done.
  - apply Hl in HP; [done|left].
  - apply Hl in HQ; [done|left].
Qed.

Lemma filter_length_lt_strict (P Q : A → Prop) `{∀ x, Decision (P x)}
    `{∀ x, Decision (Q x)} (l : list A) x :
  (∀ y, y ∈ l → P y → Q y) → x ∈ l → Q x → ¬ P x →
  length (filter P l) < length (filter Q l).
Proof.
  intros Hsub Hx HQ HP.
  assert (∀ k : list A, (∀ y, y ∈ k → P y → Q y) →
            length (filter P k) ≤ length (filter Q k)) as Hle.
  { induction k as [|y k IH]; intros Hk; [done|].
    rewrite !filter_cons.
    assert (length (filter P k) ≤ length (filter Q k)) as Hk'.
    { apply IH. intros z Hz. apply Hk. by right. }
    destruct (decide (P y)) as [HPy|HPy].
    - rewrite decide_True by (apply Hk; [left|done]). simpl. lia.
    - destruct (decide (Q y)); simpl; lia. }
  induction l as [|y l IH]; [by apply elem_of_nil in Hx|].
  rewrite !filter_cons.
  assert (length (filter P l) ≤ length (filter Q l)) as Hl.
  { apply Hle. intros z Hz. apply Hsub. by right. }
  apply elem_of_cons in Hx as [<-|Hx].
  - rewrite decide_False, decide_True by done. simpl. lia.
  - assert (length (filter P l) < length (filter Q l)) as Hlt.
    { apply IH; [|done]. intros z Hz. apply Hsub. by right. }
    destruct (decide (P y)) as [HPy|HPy].
    + rewrite decide_True by (apply Hsub; [left|done]). simpl. lia.
    + destruct (decide (Q y)); simpl; lia.
Qed.

Lemma preimage_list {B} (f : A → B) (P : A → Prop) (l : list B) :
  (∀ y, y ∈ l → ∃ x, P x ∧ f x = y) →
  ∃ xs, f <$> xs = l ∧ Forall P xs.
Proof.
  induction l as [|y l IH]; intros Hl.
  - by exists [].
  - destruct (Hl y) as (x & HP & <-); [left|].
    destruct IH as (xs & <- & Hxs).
    { intros z Hz. apply Hl. by right. }
    exists (x :: xs). split; [done|by constructor].
Qed.

Lemma StronglySorted_lookup (R : relation A) (l : list A) i j x y :
  StronglySorted R l → l !! i = Some x → l !! j = Some y → i < j → R x y.
Proof.
  intros Hl. revert i j. induction Hl as [|z l _ IH Hz]; intros i j Hi Hj Hij.
  - by rewrite lookup_nil in Hi.
  - destruct j as [|j]; [lia|]. simpl in Hj.
    destruct i as [|i]; simpl in Hi.
    + simplify_eq. rewrite Forall_forall in Hz. apply Hz.
      by eapply list_elem_of_lookup_2.
    + eapply (IH i j); [done..|lia].
Qed.
End list_facts.

(** ** Which rows a queryset holds *)

Section queries.
Context (db : Database) (course_key : string).

Lemma elem_of_join_user r (row : Row) :
  row ∈ join_user db r ↔ row.1 = r ∧ auth_user db !! user r = Some row.2.
Proof.
  unfold join_user. destruct row as [r' u'].
  destruct (auth_user db !! user r) as [u|]; simpl.
  - rewrite list_elem_of_singleton. split.
    + intros [= -> ->]. done.
    + intros [Hr [= Hu]]. simpl in *. by subst.
  - rewrite elem_of_nil. split; [done|]. by intros [_ ?].
Qed.

Lemma elem_of_where_user_is_active (row' row : Row) :
  row ∈ where_user_is_active row' ↔ row = row' ∧ is_active row.2 = true.
Proof.
  unfold where_user_is_active. destruct (is_active row'.2) eqn:Hact.
  - rewrite list_elem_of_singleton. split.
    + by intros ->.
    + by intros [-> _].
  - rewrite elem_of_nil. split; [done|]. intros [-> Hact']. congruence.
Qed.

Lemma elem_of_constant_fmap {A B} (x y : B) (l : list A) :
  x ∈ (λ _, y) <$> l ↔ x = y ∧ l ≠ [].
Proof.
  rewrite list_elem_of_fmap. split.
  - intros (a & -> & Ha). split; [done|]. intros ->. by apply elem_of_nil in Ha.
  - intros [-> Hl]. destruct l as [|a l]; [done|]. exists a. split; [done|left].
Qed.

Lemma filter_nonempty_Exists {A} (P : A → Prop) `{∀ x, Decision (P x)}
    (l : list A) :
  filter P l ≠ [] ↔ Exists P l.
Proof.
  rewrite Exists_exists. split.
  - intros Hne. destruct (filter P l) as [|x k] eqn:Hf; [done|].
    assert (x ∈ filter P l) as Hx by (rewrite Hf; left).
    apply list_elem_of_filter in Hx as [HP Hx]. eauto.
  - intros (x & Hx & HP) Hnil.
    by apply (filter_nil_not_elem_of P l x).
Qed.

Lemma elem_of_join_courseenrollment (row' row : Row) :
  row ∈ join_courseenrollment db course_key row'
  ↔ row = row' ∧ enrolled db course_key (user row.1).
Proof.
  unfold join_courseenrollment, enrolled.
  rewrite elem_of_constant_fmap, filter_nonempty_Exists. split.
  - intros [-> Henr]. done.
  - intros [-> Henr]. done.
Qed.

Lemma elem_of_filter_enrolled (row : Row) :
  row ∈ filter_enrolled db course_key
  ↔ row.1 ∈ progress_studentprogress db ∧ course_id row.1 = course_key
    ∧ auth_user db !! user row.1 = Some row.2 ∧ is_active row.2 = true
    ∧ enrolled db course_key (user row.1).
Proof.
  unfold filter_enrolled. cbv zeta. rewrite list_elem_of_bind. split.
  - intros (row1 & H1 & H2).
    apply elem_of_join_courseenrollment in H1 as [-> Henr].
    apply list_elem_of_bind in H2 as (row2 & H2 & H3).
    apply elem_of_where_user_is_active in H2 as [-> Hact].
    apply list_elem_of_bind in H3 as (r & H3 & H4).
    apply elem_of_join_user in H3 as [<- Hu].
    apply list_elem_of_filter in H4 as [Hc Hr]. done.
  - intros (Hr & Hc & Hu & Hact & Henr).
    exists row. split; [by apply elem_of_join_courseenrollment|].
    apply list_elem_of_bind. exists row.
    split; [by apply elem_of_where_user_is_active|].
    apply list_elem_of_bind. exists row.1.
    split; [by apply elem_of_join_user|].
    by apply list_elem_of_filter.
Qed.

Lemma elem_of_membership_join (memberships : User → list Z) (ids : list Z)
    (qs : list Row) (row : Row) :
  row ∈ qs ≫= (λ row : Row,
                 (λ _, row) <$> filter (λ m, m ∈ ids) (memberships row.2))
  ↔ row ∈ qs ∧ Exists (λ m, m ∈ ids) (memberships row.2).
Proof.
  rewrite list_elem_of_bind. split.
  - intros (row' & H1 & H2).
    apply elem_of_constant_fmap in H1 as [-> H1].
    by apply filter_nonempty_Exists in H1.
  - intros [Hrow Hex]. exists row. split; [|done].
    apply elem_of_constant_fmap. split; [done|].
    by apply filter_nonempty_Exists.
Qed.

Lemma elem_of_organizations_filter org_ids (qs : list Row) (row : Row) :
  row ∈ (if truthy org_ids
         then filter_organizations_in (ids_of org_ids) qs else qs)
  ↔ row ∈ qs ∧ restricted_to org_ids (organizations row.2).
Proof.
  destruct org_ids as [[|o os]|]; simpl; [tauto| |tauto].
  apply elem_of_membership_join.
Qed.

Lemma elem_of_groups_filter group_ids (qs : list Row) (row : Row) :
  row ∈ (if truthy group_ids
         then filter_groups_in (ids_of group_ids) qs else qs)
  ↔ row ∈ qs ∧ restricted_to group_ids (groups row.2).
Proof.
  destruct group_ids as [[|g gs]|]; simpl; [tauto| |tauto].
  apply elem_of_membership_join.
Qed.

(** The rows left by the filters shared by the totals and the
    leaderboard are the joins of the qualifying summaries. *)
Lemma elem_of_selected exclude org_ids group_ids (row : Row) :
  row ∈ selected db course_key exclude org_ids group_ids
  ↔ qualifying_summary db course_key exclude org_ids group_ids row.1
    ∧ auth_user db !! user row.1 = Some row.2.
Proof.
  unfold selected. cbv zeta.
  rewrite elem_of_groups_filter, elem_of_organizations_filter.
  rewrite list_elem_of_filter, elem_of_filter_enrolled.
  unfold qualifying_summary, qualifies. split.
  - intros [[[Hex (Hr & Hc & Hu & Hact & Henr)] Horg] Hgrp].
    rewrite Hu. done.
  - intros [(Hr & Hc & Hq) Hu]. rewrite Hu in Hq.
    destruct Hq as (Hact & Henr & Hex & Horg & Hgrp). done.
Qed.
End queries.

(** ** Lists without duplicate keys *)

Section more_list_facts.
Context {A B : Type}.

Lemma NoDup_fmap_filter (f : A → B) (P : A → Prop) `{∀ x, Decision (P x)}
    (l : list A) :
  NoDup (f <$> l) → NoDup (f <$> filter P l).
Proof.
  induction l as [|x l IH]; [done|].
  rewrite fmap_cons, NoDup_cons. intros [Hx Hl].
  rewrite filter_cons. destruct (decide (P x)); [|by apply IH].
  rewrite fmap_cons, NoDup_cons. split; [|by apply IH].
  intros Hin. apply Hx.
  apply list_elem_of_fmap in Hin as (y & -> & Hy).
  apply list_elem_of_filter in Hy as [_ Hy]. by apply list_elem_of_fmap_2.
Qed.

Lemma NoDup_fmap_elem_of_inj (f : A → B) (l : list A) x y :
  NoDup (f <$> l) → x ∈ l → y ∈ l → f x = f y → x = y.
Proof.
  induction l as [|z l IH]; intros Hnd Hx Hy Heq; [by apply elem_of_nil in Hx|].
  rewrite fmap_cons in Hnd. apply NoDup_cons in Hnd as [Hz Hnd].
  apply elem_of_cons in Hx as [Hx|Hx]; apply elem_of_cons in Hy as [Hy|Hy].
  - congruence.
  - exfalso. apply Hz. rewrite <- Hx, Heq. by apply list_elem_of_fmap_2.
  - exfalso. apply Hz. rewrite <- Hy. rewrite <- Heq. by apply list_elem_of_fmap_2.
  - by apply IH.
Qed.

Lemma NoDup_fmap_pair_l {C} (f : A → B) (g : A → C) (c : C) (l : list A) :
  (∀ x, x ∈ l → g x = c) →
  NoDup ((λ x, (f x, g x)) <$> l) → NoDup (f <$> l).
Proof.
  induction l as [|x l IH]; intros Hg; [intros _; constructor|].
  rewrite !fmap_cons, !NoDup_cons. intros [Hx Hl]. split.
  - intros Hin. apply Hx.
    apply list_elem_of_fmap in Hin as (y & Hfy & Hy).
    apply list_elem_of_fmap. exists y. split; [|done].
    rewrite Hfy. f_equal. rewrite (Hg x) by left. symmetry. apply Hg. by right.
  - apply IH; [|done]. intros y Hy. apply Hg. by right.
Qed.

Lemma StronglySorted_fmap_inv (f : A → B) (R1 : relation A)
    (R2 : relation B) (l : list A) :
  (∀ x y, R2 (f x) (f y) → R1 x y) →
  StronglySorted R2 (f <$> l) → StronglySorted R1 l.
Proof.
  intros HR. induction l as [|x l IH]; [constructor|].
  rewrite fmap_cons. intros [Hx Hl]%StronglySorted_cons.
  constructor; [by apply IH|].
  rewrite Forall_fmap in Hx. eapply Forall_impl; [done|]. intros y. apply HR.
Qed.
End more_list_facts.

(** ** Consequences of [unique_together] *)

Section ranking.
Context (db : Database).
Hypothesis Hunique : unique_together db.

Lemma summary_unique r1 r2 :
  r1 ∈ progress_studentprogress db → r2 ∈ progress_studentprogress db →
  user r1 = user r2 → course_id r1 = course_id r2 → r1 = r2.
Proof.
  intros H1 H2 Hu Hc.
  apply (NoDup_fmap_elem_of_inj (λ r, (user r, course_id r))
           (progress_studentprogress db)); [done..|].
  by rewrite Hu, Hc.
Qed.

Lemma summary_filter_unique r :
  r ∈ progress_studentprogress db →
  filter (λ r', course_id r' = course_id r ∧ user r' = user r)
         (progress_studentprogress db) = [r].
Proof.
  intros Hr.
  rewrite <- (filter_unique_key (λ r, (user r, course_id r))
                (progress_studentprogress db) r) by done.
  apply list_filter_iff. intros r'. split.
  - intros [-> ->]. done.
  - intros [= -> ->]. done.
Qed.

Lemma objects_get_unique r :
  r ∈ progress_studentprogress db →
  objects_get db (course_id r) (user r) = Ok r.
Proof. intros Hr. unfold objects_get. by rewrite summary_filter_unique. Qed.

Lemma completions_of_summary r :
  r ∈ progress_studentprogress db →
  completions_of db (course_id r) (user r) = completions r.
Proof. intros Hr. unfold completions_of. by rewrite summary_filter_unique. Qed.

Lemma NoDup_summaries : NoDup (progress_studentprogress db).
Proof. eapply NoDup_fmap_1, Hunique. Qed.

Lemma NoDup_users_of_course course_key (P : StudentProgress → Prop)
    `{∀ r, Decision (P r)} :
  NoDup (user <$> filter (λ r, course_id r = course_key ∧ P r)
                         (progress_studentprogress db)).
Proof.
  apply (NoDup_fmap_pair_l user course_id course_key).
  - intros r Hr. apply list_elem_of_filter in Hr. tauto.
  - apply NoDup_fmap_filter, Hunique.
Qed.
End ranking.

Lemma joined_active_length (db : Database) (exclude : list Z)
    (P : StudentProgress → Prop) `{∀ r, Decision (P r)}
    (l : list StudentProgress) :
  length (filter (λ row : Row, user row.1 ∉ exclude)
            ((filter P l ≫= join_user db) ≫= where_user_is_active))
  = length (filter (λ r, P r ∧ active db (user r) ∧ user r ∉ exclude) l).
Proof.
  induction l as [|r l IH]; [done|].
  rewrite (filter_cons P), (filter_cons (λ r, P r ∧ _)).
  destruct (decide (P r)) as [HP|HP].
  - rewrite bind_cons, bind_app, filter_app, length_app, IH.
    assert (length (filter (λ row : Row, user row.1 ∉ exclude)
                      (join_user db r ≫= where_user_is_active))
            = if decide (P r ∧ active db (user r) ∧ user r ∉ exclude)
              then 1 else 0) as ->.
    { destruct (decide (P r ∧ active db (user r) ∧ user r ∉ exclude))
        as [(_ & Hact & Hex)|Hn]; unfold join_user.
      - unfold active in Hact.
        destruct (auth_user db !! user r) as [u|]; [|done]. csimpl.
        unfold where_user_is_active. simpl. rewrite Hact. simpl.
        by rewrite filter_cons_True.
      - destruct (auth_user db !! user r) as [u|] eqn:Hu; csimpl; [|done].
        unfold where_user_is_active. simpl.
        destruct (is_active u) eqn:Ha; simpl; [|done].
        rewrite filter_cons_False; [done|]. simpl. intros Hex. apply Hn.
        unfold active. by rewrite Hu. }
    by case_decide.
  - rewrite decide_False by tauto. done.
Qed.

(** ** [get_user_position] *)

Section positions.
Context (db : Database).
Hypothesis Hunique : unique_together db.

(** The count behind [get_user_position], as a filter on the table. *)
Lemma get_user_position_count exclude subject :
  subject ∈ progress_studentprogress db →
  get_user_position db (course_id subject) (user subject) (Some exclude)
  = Ok {| data_completions := completions subject;
          data_position :=
            Z.of_nat (length (filter
              (λ r, (above (completions subject) (modified subject) r
                     ∧ course_id r = course_id subject)
                    ∧ active db (user r) ∧ user r ∉ exclude)
              (progress_studentprogress db))) + 1 |}.
Proof.
  intros Hs. unfold get_user_position.
  rewrite objects_get_unique by done. simpl.
  by rewrite joined_active_length.
Qed.

Lemma above_not_self subject r :
  r ∈ progress_studentprogress db → subject ∈ progress_studentprogress db →
  above (completions subject) (modified subject) r →
  course_id r = course_id subject → user r ≠ user subject.
Proof.
  intros Hr Hs Habove Hc Hu.
  assert (r = subject) as -> by by apply (summary_unique db).
  unfold above in Habove. lia.
Qed.
End positions.

(** C2: for a user with a summary row for the course, [get_user_position]
    returns that row's completions and the position one plus the number of
    other active users, outside [exclude], whose summary for the course beats
    the subject's (more completions, or as many and modified earlier).  The
    exclusion list only removes users from the comparison: the statement
    holds whether or not [user_id] itself is in [exclude]. *)
Theorem get_user_position_rank db course_key user_id exclude subject :
  unique_together db →
  subject ∈ progress_studentprogress db →
  course_id subject = course_key → user subject = user_id →
  get_user_position db course_key user_id (Some exclude)
  = Ok {| data_completions := completions subject;
          data_position :=
            1 + Z.of_nat (length (users_beating db course_key exclude subject)) |}.
Proof.
  intros Hunique Hs <- <-. rewrite get_user_position_count by done.
  do 2 f_equal. rewrite Z.add_comm. do 3 f_equal.
  unfold users_beating.
  rewrite remove_dups_NoDup by by apply NoDup_users_of_course.
  rewrite length_fmap. f_equal. apply filter_ext_elem_of.
  intros r Hr. unfold beats, above. split.
  - intros ((Habove & Hc) & Hact & Hex). split_and!; try done.
    by apply (above_not_self db).
  - tauto.
Qed.

(** C4: for a course and a user id without a summary row,
    [get_user_position] returns position 0 and completions 0 and raises
    nothing, whatever rows the other users have and whatever
    [exclude_users] is. *)
Theorem get_user_position_without_summary db course_key user_id exclude_users :
  (∀ r, r ∈ progress_studentprogress db →
        course_id r = course_key → user r ≠ user_id) →
  get_user_position db course_key user_id exclude_users
  = Ok {| data_completions := 0; data_position := 0 |}.
Proof.
  intros Hnone. unfold get_user_position, objects_get.
  rewrite filter_none; [done|]. intros r Hr [Hc Hu]. by apply (Hnone r).
Qed.

(** ** [generate_leaderboard] *)

Section leaderboard.
Context (db : Database) (course_key : string).
Context (exclude : list Z) (org_ids group_ids : option (list Z)).
Hypothesis Hunique : unique_together db.

Lemma values_summary (row : Row) :
  auth_user db !! user row.1 = Some row.2 →
  values row = (summary_entry db row.1, modified row.1).
Proof. intros Hu. unfold values, summary_entry. by rewrite Hu. Qed.

Lemma qualifying_summary_user r :
  qualifying_summary db course_key exclude org_ids group_ids r →
  ∃ u, auth_user db !! user r = Some u.
Proof.
  intros (_ & _ & Hq). unfold qualifies in Hq.
  destruct (auth_user db !! user r); [eauto|done].
Qed.

Lemma leaderboard_sorted_summaries :
  ∃ summaries : list StudentProgress,
    StronglySorted leaderboard_order summaries
    ∧ (∀ r, r ∈ summaries
            ↔ qualifying_summary db course_key exclude org_ids group_ids r)
    ∧ ∀ count, (∀ n, count = Some n → (0 ≤ n)%Z) →
        generate_leaderboard db course_key count (Some exclude)
          org_ids group_ids
        = Ok (summary_entry db <$> truncate count summaries).
Proof.
  set (Q := qualifying_summary db course_key exclude org_ids group_ids).
  set (f := λ r : StudentProgress, (summary_entry db r, modified r)).
  set (sel := selected db course_key exclude org_ids group_ids).
  set (L := if truthy group_ids then remove_dups (values <$> sel)
            else values <$> sel).
  assert (∀ y, y ∈ L ↔ ∃ r, Q r ∧ f r = y) as HL.
  { intros y. assert (y ∈ L ↔ y ∈ values <$> sel) as ->.
    { unfold L. destruct (truthy group_ids); [|done].
      apply elem_of_remove_dups. }
    rewrite list_elem_of_fmap. split.
    - intros (row & -> & Hrow). apply elem_of_selected in Hrow as [HQ Hu].
      exists row.1. split; [done|]. by rewrite values_summary.
    - intros (r & HQ & <-).
      destruct (qualifying_summary_user r HQ) as [u Hu].
      exists (r, u). split; [by rewrite values_summary|].
      by apply elem_of_selected. }
  destruct (preimage_list f Q (merge_sort order_by L)) as (xs & Hxs & HQ).
  { intros y Hy. apply HL. by rewrite <- (merge_sort_Permutation order_by L). }
  exists xs. split_and!.
  - apply (StronglySorted_fmap_inv f leaderboard_order order_by); [done|].
    rewrite Hxs. apply StronglySorted_merge_sort; apply _.
  - intros r. split.
    + rewrite Forall_forall in HQ. apply HQ.
    + intros Hr.
      assert (f r ∈ f <$> xs) as Hin.
      { rewrite Hxs, (merge_sort_Permutation order_by L). apply HL. eauto. }
      apply list_elem_of_fmap in Hin as (r' & Heq & Hr').
      assert (r' = r) as <-; [|done].
      rewrite Forall_forall in HQ. apply HQ in Hr' as Hq'.
      destruct Hr as (Hr & Hc & _), Hq' as (Hr'' & Hc' & _).
      apply (summary_unique db); [done..| |congruence].
      apply (f_equal (λ p, user__id p.1)) in Heq. done.
  - intros count Hcount.
    change (generate_leaderboard db course_key count (Some exclude)
              org_ids group_ids)
      with (do queryset <- slice count (merge_sort order_by L);
            Ok (fst <$> queryset)).
    rewrite <- Hxs.
    destruct count as [n|]; simpl.
    + rewrite decide_False by (specialize (Hcount n eq_refl); lia). simpl.
      rewrite <- fmap_take, <- list_fmap_compose. done.
    + rewrite <- list_fmap_compose. done.
Qed.
End leaderboard.

Lemma lookup_truncate {A} (count : option Z) (l : list A) i x :
  truncate count l !! i = Some x
  ↔ l !! i = Some x ∧ ∀ n, count = Some n → i < Z.to_nat n.
Proof.
  destruct count as [n|]; simpl.
  - rewrite lookup_take_Some. split.
    + intros [? ?]. split; [done|]. by intros ? [= <-].
    + intros [? Hn]. split; [done|]. by apply Hn.
  - split; [|tauto]. intros ?. split; [done|]. by intros ? [=].
Qed.

Lemma qualifies_active db key ex org grp uid :
  qualifies db key ex org grp uid → active db uid ∧ uid ∉ ex.
Proof.
  unfold qualifies, active. destruct (auth_user db !! uid); tauto.
Qed.

(** C1: two users with summary rows for the same course and equal
    completions, both passing the filters: the one whose row was modified
    earlier gets the strictly smaller position from [get_user_position], and
    in the sequence returned by [generate_leaderboard] each of its entries
    comes before each entry of the other; the later one is never listed
    without the earlier one, and both are listed when there is no limit. *)
Theorem earlier_modified_ranks_higher db course_key count exclude
    org_ids group_ids (ra rb : StudentProgress) :
  unique_together db →
  ra ∈ progress_studentprogress db → rb ∈ progress_studentprogress db →
  course_id ra = course_key → course_id rb = course_key →
  completions ra = completions rb → (modified ra < modified rb)%Z →
  qualifies db course_key exclude org_ids group_ids (user ra) →
  qualifies db course_key exclude org_ids group_ids (user rb) →
  (∀ n, count = Some n → (0 ≤ n)%Z) →
  (∃ pa pb,
     get_user_position db course_key (user ra) (Some exclude) = Ok pa
     ∧ get_user_position db course_key (user rb) (Some exclude) = Ok pb
     ∧ (data_position pa < data_position pb)%Z)
  ∧ ∃ board,
      generate_leaderboard db course_key count (Some exclude)
        org_ids group_ids = Ok board
      ∧ (∀ i j ea eb,
           board !! i = Some ea → board !! j = Some eb →
           user__id ea = user ra → user__id eb = user rb → i < j)
      ∧ (∀ j eb,
           board !! j = Some eb → user__id eb = user rb →
           ∃ i, i < j ∧ board !! i = Some (summary_entry db ra))
      ∧ (count = None →
           summary_entry db ra ∈ board ∧ summary_entry db rb ∈ board).
Proof.
  intros Hunique Hra Hrb Hca Hcb Hcompl Hmod Hqa Hqb Hcount. split.
  - eexists _, _. split_and!.
    + rewrite <- Hca. by apply get_user_position_count.
    + rewrite <- Hcb. by apply get_user_position_count.
    + simpl. apply Z.add_lt_mono_r, Nat2Z.inj_lt.
      apply qualifies_active in Hqa as [Hact Hex].
      apply (filter_length_lt_strict _ _ _ ra); [|done| |].
      * unfold above. intros r _ ((Habove & Hc) & ? & ?).
        split_and!; [lia|congruence|done..].
      * unfold above. split_and!; [lia|congruence|done..].
      * unfold above. lia.
  - destruct (leaderboard_sorted_summaries db course_key exclude org_ids
                group_ids Hunique) as (S & Hsorted & Hmem & Hboard).
    assert (∀ i r r0, S !! i = Some r → r0 ∈ progress_studentprogress db →
              course_id r0 = course_key → user r = user r0 → r = r0) as Hid.
    { intros i r r0 Hi Hr0 Hc0 Hu.
      apply list_elem_of_lookup_2, Hmem in Hi as (Hr & Hc & _).
      apply (summary_unique db); [done..|congruence]. }
    assert (∀ i j, S !! i = Some ra → S !! j = Some rb → i < j) as Hlt.
    { intros i j Hi Hj. destruct (lt_eq_lt_dec i j) as [[?| ->]|Hji]; [done|..].
      - rewrite Hi in Hj. injection Hj as ->. lia.
      - pose proof (StronglySorted_lookup _ _ _ _ _ _ Hsorted Hj Hi Hji) as Ho.
        unfold leaderboard_order in Ho. lia. }
    assert (∀ i e r0, (summary_entry db <$> truncate count S) !! i = Some e →
              r0 ∈ progress_studentprogress db → course_id r0 = course_key →
              user__id e = user r0 →
              S !! i = Some r0 ∧ ∀ n, count = Some n → i < Z.to_nat n) as Hent.
    { intros i e r0 Hi Hr0 Hc0 Hu.
      apply list_lookup_fmap_Some in Hi as (r & -> & Hi).
      apply lookup_truncate in Hi as [Hi Hn].
      by rewrite <- (Hid i r r0 Hi Hr0 Hc0 Hu). }
    exists (summary_entry db <$> truncate count S). split_and!.
    + by apply Hboard.
    + intros i j ea eb Hi Hj Hua Hub.
      apply (Hent _ _ ra) in Hi as [Hi _]; [|done..].
      apply (Hent _ _ rb) in Hj as [Hj _]; [|done..].
      by apply Hlt.
    + intros j eb Hj Hub.
      apply (Hent _ _ rb) in Hj as [Hj Hn]; [|done..].
      assert (ra ∈ S) as [i Hi]%list_elem_of_lookup_1 by by apply Hmem.
      pose proof (Hlt i j Hi Hj) as Hij.
      exists i. split; [done|].
      apply list_lookup_fmap_Some. exists ra. split; [done|].
      apply lookup_truncate. split; [done|].
      intros n Hc. specialize (Hn n Hc). lia.
    + intros ->. simpl. split; apply list_elem_of_fmap_2, Hmem; done.
Qed.

(** C5: with a non-empty group filter, [get_total_completions] is the sum,
    over the set of distinct qualifying users, of the completions stored for
    each: a user in several of the groups is counted once. *)
Theorem get_total_completions_counts_users_once db course_key exclude
    org_ids group_ids :
  unique_together db →
  truthy group_ids = true →
  get_total_completions db course_key (Some exclude) org_ids group_ids
  = Ok (sum_completions
          (completions_of db course_key
             <$> qualifying_users db course_key exclude org_ids group_ids)).
Proof.
  intros Hunique Hgrp.
  set (sel := selected db course_key exclude org_ids group_ids).
  assert (get_total_completions db course_key (Some exclude) org_ids group_ids
          = Ok (sum_completions (completions <$> remove_dups (fst <$> sel))))
    as ->.
  { unfold get_total_completions, sel, selected. simpl. by rewrite Hgrp. }
  f_equal. unfold qualifying_users.
  set (P := λ r, course_id r = course_key
                 ∧ qualifies db course_key exclude org_ids group_ids (user r)).
  rewrite (remove_dups_NoDup (user <$> _))
    by by apply NoDup_users_of_course.
  rewrite <- list_fmap_compose.
  rewrite (sum_completions_Permutation _
             (completions <$> filter P (progress_studentprogress db))).
  - f_equal. apply list_fmap_ext. intros i r Hr.
    apply list_elem_of_lookup_2, list_elem_of_filter in Hr as [[<- _] Hr].
    simpl. by rewrite completions_of_summary.
  - apply fmap_Permutation, NoDup_Permutation.
    + apply NoDup_remove_dups.
    + apply NoDup_filter. by apply NoDup_summaries.
    + intros r. rewrite elem_of_remove_dups, list_elem_of_fmap,
        list_elem_of_filter. split.
      * intros (row & -> & Hrow).
        apply elem_of_selected in Hrow as [(? & ? & ?) _]. done.
      * intros [[Hc Hq] Hr].
        destruct (qualifying_summary_user db course_key exclude org_ids
                    group_ids r) as [u Hu]; [done|].
        exists (r, u). split; [done|]. by apply elem_of_selected.
Qed.

(** ** [get_actual_completions] *)

Lemma Q_holds_foldl q qs c :
  Q_holds (foldl Q_or q qs) c = Q_holds q c || existsb (λ q', Q_holds q' c) qs.
Proof.
  revert q. induction qs as [|q' qs IH]; intros q; simpl.
  - by rewrite orb_false_r.
  - rewrite IH. simpl. by rewrite orb_assoc.
Qed.

(** C9: when [PROGRESS_DETACHED_CATEGORIES] is undefined or empty,
    [get_actual_completions] raises [TypeError] ([reduce] of an empty
    sequence); with at least one category it returns the completions whose
    [content_id] contains none of the stripped categories. *)
Theorem get_actual_completions_needs_category objects :
  get_actual_completions None objects = Raise TypeError
  ∧ get_actual_completions (Some []) objects = Raise TypeError
  ∧ ∀ item items,
      get_actual_completions (Some (item :: items)) objects
      = Ok (filter (λ c, Forall (λ item, contains (strip item) (content_id c)
                                         = false) (item :: items))
                   objects).
Proof.
  split_and!; [done..|]. intros item items.
  unfold get_actual_completions, reduce. simpl. f_equal.
  apply list_filter_iff. intros c. rewrite Q_holds_foldl. simpl.
  rewrite Forall_cons, orb_false_iff. apply and_iff_compat_l.
  induction items as [|i items IH]; simpl.
  - split; [constructor|done].
  - rewrite Forall_cons, orb_false_iff. by rewrite IH.
Qed.

(** ** The middleware *)

(** C10: for a hostname that does not end with [SITE_NAME],
    [CustomDomainsRedirectMiddleware.process_request] returns no response and
    leaves the world as it was: no cache read, no cache write and no query of
    the [AlternativeDomain] table. *)
Theorem process_request_outside_site_name settings AlternativeDomain now
    request w :
  endswith (get_host request) (SITE_NAME settings) = false →
  CustomDomainsRedirectMiddleware.process_request settings AlternativeDomain
    now request w = (Ok None, w).
Proof.
  intros Hsuffix. unfold CustomDomainsRedirectMiddleware.process_request.
  by rewrite Hsuffix.
Qed.

(** C8: when evaluating the main-site policy raises,
    [RedirectMiddleware.process_request] carries on with the path redirects
    from the same state, exactly as when the policy declines (see
    [policy_declined]): the policy yields no redirect and its exception does
    not reach the caller. *)
Theorem policy_exception_swallowed settings table now request w e :
  RedirectMiddleware.main_site_policy settings request = Raise e →
  RedirectMiddleware.process_request settings table now request w
  = RedirectMiddleware.path_redirect settings table now request w.
Proof.
  intros Hraise. unfold RedirectMiddleware.process_request, bindM, try_except,
    RedirectMiddleware.lift.
  by rewrite Hraise.
Qed.

Lemma policy_declined settings table now request w :
  RedirectMiddleware.main_site_policy settings request = Ok false →
  RedirectMiddleware.process_request settings table now request w
  = RedirectMiddleware.path_redirect settings table now request w.
Proof.
  intros Hno. unfold RedirectMiddleware.process_request, bindM, try_except,
    RedirectMiddleware.lift.
  by rewrite Hno.
Qed.

Lemma policy_redirects settings table now request w :
  RedirectMiddleware.main_site_policy settings request = Ok true →
  RedirectMiddleware.process_request settings table now request w
  = (Ok (Some (HttpResponseRedirect RedirectMiddleware.admin_url)), w).
Proof.
  intros Hyes. unfold RedirectMiddleware.process_request, bindM, try_except,
    RedirectMiddleware.lift.
  by rewrite Hyes.
Qed.

Section custom_domains.
Import CustomDomainsRedirectMiddleware.
Context (settings : Settings) (request : HttpRequest).
Let hostname := get_host request.
Let cache_key :=
  format_cache_key (CUSTOM_DOMAINS_REDIRECT_CACHE_KEY_PREFIX settings)
                   hostname.
Let timeout := CUSTOM_DOMAINS_REDIRECT_CACHE_TIMEOUT settings.
Hypothesis Hsuffix : endswith hostname (SITE_NAME settings) = true.

(** A request that finds a live entry reads the cache and nothing else. *)
Lemma process_request_hit table now w custom_domain :
  lookup_live now cache_key (general w) = Some custom_domain →
  process_request settings table now request w
  = (Ok (if nonempty custom_domain
         then Some (HttpResponseRedirect ("https://" +:+ custom_domain))
         else None),
     {| general := general w; default_cache := default_cache w;
        trace := trace w ++ [CacheGet "general" cache_key] |}).
Proof.
  intros Hhit. unfold process_request. fold hostname. rewrite Hsuffix.
  fold cache_key. unfold bindM, general_get, bindM, emit. simpl.
  rewrite Hhit. unfold ret. simpl. by destruct (nonempty custom_domain).
Qed.

(** A request that misses queries the table once and stores what it
    found, the empty string when there is no mapping. *)
Lemma process_request_miss table now w :
  lookup_live now cache_key (general w) = None →
  let custom_domain := default EmptyString (table !! hostname) in
  process_request settings table now request w
  = (Ok (if nonempty custom_domain
         then Some (HttpResponseRedirect ("https://" +:+ custom_domain))
         else None),
     {| general := <[cache_key := {| entry_value := custom_domain;
                                     entry_expires := expiry now timeout |}]>
                     (general w);
        default_cache := default_cache w;
        trace := trace w ++ [CacheGet "general" cache_key;
                             QueryAlternativeDomain hostname;
                             CacheSet "general" cache_key] |}).
Proof.
  intros Hmiss. unfold process_request. fold hostname. rewrite Hsuffix.
  fold cache_key. unfold bindM, general_get, bindM, emit. simpl.
  rewrite Hmiss.
  unfold try_except, objects_get, general_set, bindM, emit, ret, throw.
  simpl.
  destruct (table !! hostname) as [d|]; simpl;
    rewrite <- !app_assoc; simpl.
  - by destruct (nonempty d).
  - done.
Qed.
End custom_domains.

(** C7, for hostnames ending with [SITE_NAME]: a second request for the
    hostname that finds the cached entry live does not query the
    [AlternativeDomain] table and leaves the cache as it is; a first request
    that misses the cache for a hostname without a mapping returns no
    redirect, queries the table once and stores the empty string under the
    hostname's key with the configured timeout, and the second request is
    then answered from the cache, again without redirect; a request that
    misses the cache for a hostname mapped to a non-empty domain redirects
    to that domain over https. *)
Theorem negative_result_cached settings table table' now now' request w :
  let hostname := get_host request in
  let cache_key :=
    format_cache_key (CUSTOM_DOMAINS_REDIRECT_CACHE_KEY_PREFIX settings)
                     hostname in
  let negative :=
    {| entry_value := EmptyString;
       entry_expires :=
         expiry now (CUSTOM_DOMAINS_REDIRECT_CACHE_TIMEOUT settings) |} in
  let first :=
    CustomDomainsRedirectMiddleware.process_request settings table now
      request w in
  let second :=
    CustomDomainsRedirectMiddleware.process_request settings table' now'
      request first.2 in
  endswith hostname (SITE_NAME settings) = true →
  (is_Some (lookup_live now' cache_key (general first.2)) →
     no_query hostname first.2 second.2
     ∧ general second.2 = general first.2)
  ∧ (lookup_live now cache_key (general w) = None →
     table !! hostname = None →
     first.1 = Ok None
     ∧ general first.2 !! cache_key = Some negative
     ∧ trace first.2 = trace w ++ [CacheGet "general" cache_key;
                                   QueryAlternativeDomain hostname;
                                   CacheSet "general" cache_key]
     ∧ (live now' negative →
        second.1 = Ok None
        ∧ trace second.2 = trace first.2 ++ [CacheGet "general" cache_key]))
  ∧ (lookup_live now cache_key (general w) = None →
     ∀ custom_domain,
       table !! hostname = Some custom_domain →
       nonempty custom_domain = true →
       first.1 = Ok (Some (HttpResponseRedirect
                             ("https://" +:+ custom_domain)))).
Proof.
  intros hostname cache_key negative first second Hsuffix. split_and!.
  - intros [d Hd]. unfold second.
    rewrite (process_request_hit settings request Hsuffix table' now'
               first.2 d Hd). simpl. split; [|done].
    exists [CacheGet "general" cache_key]. split; [done|].
    rewrite list_elem_of_singleton. done.
  - intros Hmiss Hnone.
    assert (first = (Ok None,
              {| general := <[cache_key := negative]> (general w);
                 default_cache := default_cache w;
                 trace := trace w ++ [CacheGet "general" cache_key;
                                      QueryAlternativeDomain hostname;
                                      CacheSet "general" cache_key] |}))
      as Hfirst.
    { unfold first.
      rewrite (process_request_miss settings request Hsuffix table now w Hmiss).
      fold hostname. by rewrite Hnone. }
    split_and!.
    + by rewrite Hfirst.
    + rewrite Hfirst. simpl. apply lookup_insert_eq.
    + by rewrite Hfirst.
    + intros Hlive. unfold second.
      rewrite (process_request_hit settings request Hsuffix table' now'
                 first.2 EmptyString).
      * done.
      * rewrite Hfirst. simpl. unfold lookup_live. fold hostname cache_key.
        rewrite lookup_insert_eq. by rewrite decide_True.
  - intros Hmiss d Hd Hne. unfold first.
    rewrite (process_request_miss settings request Hsuffix table now w Hmiss).
    fold hostname. rewrite Hd. simpl. by rewrite Hne.
Qed.

(** C6, at the default [exclude_users=None]: the three filtered queries
    raise [ValueError] on every database, and so does [get_user_position]
    for a user with a summary, while the same calls with the empty list
    return a result. *)
Theorem absent_exclude_users_raises db course_key count org_ids group_ids :
  get_total_completions db course_key None org_ids group_ids = Raise ValueError
  ∧ get_num_users_started db course_key None org_ids group_ids
    = Raise ValueError
  ∧ generate_leaderboard db course_key count None org_ids group_ids
    = Raise ValueError
  ∧ get_user_position sample_db "C" 2 None = Raise ValueError
  ∧ (∃ n, get_total_completions db course_key (Some []) org_ids group_ids
          = Ok n)
  ∧ (∃ n, get_num_users_started db course_key (Some []) org_ids group_ids
          = Ok n)
  ∧ get_user_position sample_db "C" 2 (Some [])
    = Ok {| data_completions := 5; data_position := 2 |}.
Proof.
  split_and!; [done..| | |reflexivity]; eexists; reflexivity.
Qed.

(** An absent [org_ids] or [group_ids] is the same as an empty one. *)

Lemma absent_org_and_group_filters db course_key count exclude_users ids :
  get_total_completions db course_key exclude_users None ids
  = get_total_completions db course_key exclude_users (Some []) ids
  ∧ get_total_completions db course_key exclude_users ids None
    = get_total_completions db course_key exclude_users ids (Some [])
  ∧ get_num_users_started db course_key exclude_users None ids
    = get_num_users_started db course_key exclude_users (Some []) ids
  ∧ get_num_users_started db course_key exclude_users ids None
    = get_num_users_started db course_key exclude_users ids (Some [])
  ∧ generate_leaderboard db course_key count exclude_users None ids
    = generate_leaderboard db course_key count exclude_users (Some []) ids
  ∧ generate_leaderboard db course_key count exclude_users ids None
    = generate_leaderboard db course_key count exclude_users ids (Some []).
Proof. split_and!; reflexivity. Qed.

(** ** The statements above on the sample data *)

(** The example of the specification: the leaderboard lists users 1, 2, 3 in
    that order and user 2 is in position 2. *)
Example sample_leaderboard_order :
  ∃ board,
    generate_leaderboard sample_db "C" None (Some []) None None = Ok board
    ∧ user__id <$> board = [1; 2; 3]%Z.
Proof. eexists. split; reflexivity. Qed.

Example sample_position_of_b :
  get_user_position sample_db "C" 2 (Some [])
  = Ok {| data_completions := 5; data_position := 2 |}.
Proof. reflexivity. Qed.

(** Without the group filter a user in two of the organizations is counted
    twice; with it, once. *)
Example sample_total_by_organizations :
  get_total_completions sample_db "C" (Some []) (Some [7; 8]%Z) None
  = Ok 15%Z
  ∧ get_total_completions sample_db "C" (Some []) (Some [7; 8]%Z)
      (Some [10; 11]%Z)
    = Ok 10%Z.
Proof. split; reflexivity. Qed.

Lemma earlier_modified_ranks_higher_witness :
  (∃ pa pb,
     get_user_position sample_db "C" 1 (Some [3%Z]) = Ok pa
     ∧ get_user_position sample_db "C" 2 (Some [3%Z]) = Ok pb
     ∧ (data_position pa < data_position pb)%Z)
  ∧ ∃ board,
      generate_leaderboard sample_db "C" (Some 2%Z) (Some [3%Z])
        (Some [7%Z]) None = Ok board
      ∧ (∀ i j ea eb,
           board !! i = Some ea → board !! j = Some eb →
           user__id ea = 1%Z → user__id eb = 2%Z → i < j)
      ∧ (∀ j eb,
           board !! j = Some eb → user__id eb = 2%Z →
           ∃ i, i < j ∧ board !! i = Some (summary_entry sample_db summary_a))
      ∧ (Some 2%Z = None →
           summary_entry sample_db summary_a ∈ board
           ∧ summary_entry sample_db summary_b ∈ board).
Proof.
  apply (earlier_modified_ranks_higher sample_db "C" (Some 2%Z) [3%Z]
           (Some [7%Z]) None summary_a summary_b).
  - unfold unique_together. compute_done.
  - compute_done.
  - compute_done.
  - reflexivity.
  - reflexivity.
  - reflexivity.
  - simpl. lia.
  - compute_done.
  - compute_done.
  - intros n [= <-]. lia.
Defined.

Lemma get_user_position_rank_witness :
  summary_b ∈ progress_studentprogress sample_db
  ∧ get_user_position sample_db "C" 2 (Some [2%Z; 3%Z])
    = Ok {| data_completions := 5; data_position := 2 |}.
Proof.
  split; [compute_done|].
  apply (get_user_position_rank sample_db "C" 2 [2%Z; 3%Z] summary_b).
  - unfold unique_together. compute_done.
  - compute_done.
  - reflexivity.
  - reflexivity.
Defined.

Lemma get_user_position_without_summary_witness :
  (∀ r, r ∈ progress_studentprogress sample_db →
        course_id r = "C" → user r ≠ 9%Z)
  ∧ get_user_position sample_db "C" 9 None
    = Ok {| data_completions := 0; data_position := 0 |}.
Proof.
  assert (∀ r, r ∈ progress_studentprogress sample_db →
               course_id r = "C" → user r ≠ 9%Z) as Hnone.
  { intros r Hr _. simpl in Hr.
    repeat (apply elem_of_cons in Hr as [->|Hr]; [simpl; lia|]).
    by apply elem_of_nil in Hr. }
  split; [exact Hnone|].
  apply (get_user_position_without_summary sample_db "C" 9 None Hnone).
Defined.

Lemma get_total_completions_counts_users_once_witness :
  truthy (Some [10%Z; 11%Z]) = true
  ∧ get_total_completions sample_db "C" (Some []) None (Some [10%Z; 11%Z])
    = Ok 10%Z.
Proof.
  split; [reflexivity|].
  apply (get_total_completions_counts_users_once sample_db "C" [] None
           (Some [10%Z; 11%Z])).
  - unfold unique_together. compute_done.
  - reflexivity.
Defined.

(** C7 as stated fails outside [SITE_NAME]: the hostname has a mapping, yet
    the request is let through without redirect and nothing is cached. *)
Lemma mapping_outside_site_name_not_redirected :
  sample_domains !! "learn.example.org" = Some "academy.example.org"
  ∧ CustomDomainsRedirectMiddleware.process_request sample_settings
      sample_domains 0 (sample_request "learn.example.org") empty_world
    = (Ok None, empty_world)
  ∧ (CustomDomainsRedirectMiddleware.process_request sample_settings
       sample_domains 0 (sample_request "learn.example.org") empty_world).1
    ≠ Ok (Some (HttpResponseRedirect "https://academy.example.org")).
Proof. split_and!; [compute_done|reflexivity|discriminate]. Qed.

Lemma negative_result_cached_witness :
  endswith "school.youngsphere.com" "youngsphere.com" = true
  ∧ let first :=
      CustomDomainsRedirectMiddleware.process_request sample_settings
        sample_domains 0 (sample_request "school.youngsphere.com")
        empty_world in
    let second :=
      CustomDomainsRedirectMiddleware.process_request sample_settings
        sample_domains 60 (sample_request "school.youngsphere.com")
        first.2 in
    first.1 = Ok None
    ∧ second.1 = Ok None
    ∧ no_query "school.youngsphere.com" first.2 second.2.
Proof.
  split; [reflexivity|].
  pose proof (negative_result_cached sample_settings sample_domains
                sample_domains 0 60 (sample_request "school.youngsphere.com")
                empty_world eq_refl) as (Hhit & Hneg & _).
  cbv zeta in *.
  destruct Hneg as (Hfirst & _ & _ & Hsecond); [reflexivity|compute_done|].
  destruct Hsecond as [Hsecond _]; [vm_compute; reflexivity|].
  destruct Hhit as [Hnoquery _]; [eexists; vm_compute; reflexivity|].
  split_and!; [exact Hfirst|exact Hsecond|exact Hnoquery].
Defined.

Lemma policy_exception_swallowed_witness :
  RedirectMiddleware.main_site_policy sample_settings
    (sample_request "school.youngsphere.com") = Raise AttributeError
  ∧ RedirectMiddleware.process_request sample_settings [] 0
      (sample_request "school.youngsphere.com") empty_world
    = RedirectMiddleware.path_redirect sample_settings [] 0
        (sample_request "school.youngsphere.com") empty_world.
Proof.
  split; [reflexivity|].
  apply (policy_exception_swallowed sample_settings [] 0
           (sample_request "school.youngsphere.com") empty_world
           AttributeError).
  reflexivity.
Defined.

Lemma process_request_outside_site_name_witness :
  endswith "learn.example.org" "youngsphere.com" = false
  ∧ CustomDomainsRedirectMiddleware.process_request sample_settings
      sample_domains 0 (sample_request "learn.example.org") empty_world
    = (Ok None, empty_world).
Proof.
  split; [reflexivity|].
  apply (process_request_outside_site_name sample_settings sample_domains 0
           (sample_request "learn.example.org") empty_world).
  reflexivity.
Defined.

(** * Further properties *)

(** ** Positions and the order of the summaries *)

Lemma filter_length_le {A} (P Q : A → Prop) `{∀ x, Decision (P x)}
    `{∀ x, Decision (Q x)} (l : list A) :
  (∀ y, y ∈ l → P y → Q y) → length (filter P l) ≤ length (filter Q l).
Proof.
  induction l as [|y l IH]; intros Hl; [done|].
  rewrite !filter_cons.
  assert (length (filter P l) ≤ length (filter Q l)) as Hle.
  { apply IH. intros z Hz. apply Hl. by right. }
  destruct (decide (P y)) as [HP|HP].
  - rewrite decide_True by (apply Hl; [left|done]). simpl. lia.
  - destruct (decide (Q y)); simpl; lia.
Qed.

Section position_order.
Context (db : Database).
Hypothesis Hunique : unique_together db.

Lemma get_user_position_users_above exclude subject :
  subject ∈ progress_studentprogress db →
  get_user_position db (course_id subject) (user subject) (Some exclude)
  = Ok {| data_completions := completions subject;
          data_position :=
            Z.of_nat (users_above db (course_id subject) exclude subject)
            + 1 |}.
Proof. intros Hs. by rewrite get_user_position_count. Qed.

Lemma users_above_le course_key exclude ra rb :
  leaderboard_order ra rb →
  users_above db course_key exclude ra ≤ users_above db course_key exclude rb.
Proof.
  intros Horder. unfold users_above. apply filter_length_le.
  intros r _. unfold leaderboard_order, above in *. intros ((? & ?) & ? & ?).
  split_and!; [lia|done..].
Qed.

Lemma users_above_lt course_key exclude ra rb :
  ra ∈ progress_studentprogress db → course_id ra = course_key →
  beats ra rb → active db (user ra) → user ra ∉ exclude →
  users_above db course_key exclude ra < users_above db course_key exclude rb.
Proof.
  intros Hra Hc Hbeats Hact Hex. unfold users_above.
  apply (filter_length_lt_strict _ _ _ ra); [|done| |].
  - intros r _. unfold beats, above in *. intros ((? & ?) & ? & ?).
    split_and!; [lia|done..].
  - unfold beats, above in *. split_and!; [lia|done..].
  - unfold above. lia.
Qed.

Lemma users_above_lt_course course_key exclude subject :
  subject ∈ progress_studentprogress db → course_id subject = course_key →
  users_above db course_key exclude subject
  < length (filter (λ r, course_id r = course_key)
                   (progress_studentprogress db)).
Proof.
  intros Hs Hc. unfold users_above.
  apply (filter_length_lt_strict _ _ _ subject); [|done..|].
  - intros r _ ((_ & ?) & _). done.
  - unfold above. lia.
Qed.
End position_order.

(** X2: when one summary of a course beats another and its user is active
    and not excluded, [get_user_position] gives that user the strictly
    smaller position. *)
Theorem get_user_position_respects_beats db course_key exclude ra rb :
  unique_together db →
  ra ∈ progress_studentprogress db → rb ∈ progress_studentprogress db →
  course_id ra = course_key → course_id rb = course_key →
  beats ra rb → active db (user ra) → user ra ∉ exclude →
  ∃ pa pb,
    get_user_position db course_key (user ra) (Some exclude) = Ok pa
    ∧ get_user_position db course_key (user rb) (Some exclude) = Ok pb
    ∧ (data_position pa < data_position pb)%Z.
Proof.
  intros Hunique Hra Hrb Hca Hcb Hbeats Hact Hex. eexists _, _. split_and!.
  - rewrite <- Hca. by apply get_user_position_users_above.
  - rewrite <- Hcb. by apply get_user_position_users_above.
  - simpl. rewrite Hca, Hcb.
    pose proof (users_above_lt db course_key exclude ra rb Hra Hca Hbeats
                  Hact Hex). lia.
Qed.

(** X3: two users whose summaries for a course have the same completions
    and the same modified time get the same position. *)
Theorem get_user_position_ties db course_key exclude ra rb :
  unique_together db →
  ra ∈ progress_studentprogress db → rb ∈ progress_studentprogress db →
  course_id ra = course_key → course_id rb = course_key →
  completions ra = completions rb → modified ra = modified rb →
  ∃ pa pb,
    get_user_position db course_key (user ra) (Some exclude) = Ok pa
    ∧ get_user_position db course_key (user rb) (Some exclude) = Ok pb
    ∧ data_position pa = data_position pb.
Proof.
  intros Hunique Hra Hrb Hca Hcb Hc Hm. eexists _, _. split_and!.
  - rewrite <- Hca. by apply get_user_position_users_above.
  - rewrite <- Hcb. by apply get_user_position_users_above.
  - simpl. rewrite Hca, Hcb.
    pose proof (users_above_le db course_key exclude ra rb) as H1.
    pose proof (users_above_le db course_key exclude rb ra) as H2.
    unfold leaderboard_order in *. lia.
Qed.

(** X4: the position of a user with a summary is at least 1 and at most
    the number of summaries stored for the course. *)
Theorem get_user_position_bounds db course_key user_id exclude subject :
  unique_together db →
  subject ∈ progress_studentprogress db →
  course_id subject = course_key → user subject = user_id →
  ∃ p,
    get_user_position db course_key user_id (Some exclude) = Ok p
    ∧ (1 ≤ data_position p
         ≤ Z.of_nat (length (filter (λ r, course_id r = course_key)
                                    (progress_studentprogress db))))%Z.
Proof.
  intros Hunique Hs Hc Hu. eexists. split.
  - rewrite <- Hc, <- Hu. by apply get_user_position_users_above.
  - simpl. rewrite Hc.
    pose proof (users_above_lt_course db course_key exclude subject Hs Hc). lia.
Qed.

(** X5: when more than one row is stored for the user and course,
    [get_user_position] raises [MultipleObjectsReturned]: only
    [DoesNotExist] is caught. *)
Theorem get_user_position_duplicate_rows db course_key user_id exclude_users :
  1 < length (filter (λ r, course_id r = course_key ∧ user r = user_id)
                     (progress_studentprogress db)) →
  get_user_position db course_key user_id exclude_users
  = Raise MultipleObjectsReturned.
Proof.
  intros Hlen. unfold get_user_position, objects_get.
  destruct (filter _ _) as [|r1 [|r2 l]]; simpl in Hlen; [lia..|done].
Qed.

(** ** The leaderboard and the number of users *)

Lemma length_remove_dups_le {A} `{EqDecision A} (l : list A) :
  length (remove_dups l) ≤ length l.
Proof.
  induction l as [|x l IH]; simpl; [done|].
  destruct (decide_rel (∈) x l); simpl; lia.
Qed.

Lemma slice_Ok_sublist {A} (count : option Z) (l q : list A) :
  slice count l = Ok q → q `sublist_of` l.
Proof.
  unfold slice. destruct count as [n|].
  - destruct (decide (n < 0)%Z); [done|]. intros [= <-]. apply sublist_take.
  - by intros [= <-].
Qed.

Lemma sublist_fmap_2 {A B} (f : A → B) (l1 l2 : list A) :
  l1 `sublist_of` l2 → f <$> l1 `sublist_of` f <$> l2.
Proof. induction 1; simpl; by constructor. Qed.

Lemma sublist_elem_of {A} (l1 l2 : list A) x :
  l1 `sublist_of` l2 → x ∈ l1 → x ∈ l2.
Proof.
  induction 1 as [|y l1 l2 _ IH|y l1 l2 _ IH]; [done| |].
  - rewrite !elem_of_cons. tauto.
  - rewrite elem_of_cons. tauto.
Qed.

(** The rows that [generate_leaderboard] sorts: the selected columns of the
    rows left by the filters, made distinct under a group filter. *)
Lemma generate_leaderboard_selected db course_key count exclude org_ids
    group_ids :
  generate_leaderboard db course_key count (Some exclude) org_ids group_ids
  = do queryset <-
      slice count
        (merge_sort order_by
           (if truthy group_ids
            then remove_dups
                   (values <$> selected db course_key exclude org_ids group_ids)
            else values <$> selected db course_key exclude org_ids group_ids));
    Ok (fst <$> queryset).
Proof. reflexivity. Qed.

Lemma get_num_users_started_selected db course_key exclude org_ids group_ids :
  get_num_users_started db course_key (Some exclude) org_ids group_ids
  = Ok (Z.of_nat (length (remove_dups
          (fst <$> selected db course_key exclude org_ids group_ids)))).
Proof. reflexivity. Qed.

Section selected_rows.
Context (db : Database) (course_key : string).
Context (exclude : list Z) (org_ids group_ids : option (list Z)).
Let sel := selected db course_key exclude org_ids group_ids.
Let Q := qualifying_summary db course_key exclude org_ids group_ids.

Lemma elem_of_selected_summaries r : r ∈ fst <$> sel ↔ Q r.
Proof.
  rewrite list_elem_of_fmap. split.
  - intros (row & -> & Hrow). by apply elem_of_selected in Hrow as [? _].
  - intros HQ.
    destruct (qualifying_summary_user db course_key exclude org_ids
                group_ids r HQ) as [u Hu].
    exists (r, u). split; [done|]. by apply elem_of_selected.
Qed.

Lemma elem_of_selected_values y :
  y ∈ values <$> sel ↔ ∃ r, Q r ∧ y = (summary_entry db r, modified r).
Proof.
  rewrite list_elem_of_fmap. split.
  - intros (row & -> & Hrow). apply elem_of_selected in Hrow as [HQ Hu].
    exists row.1. split; [done|]. by apply (values_summary db).
  - intros (r & HQ & ->).
    destruct (qualifying_summary_user db course_key exclude org_ids
                group_ids r HQ) as [u Hu].
    exists (r, u). split; [by rewrite (values_summary db)|].
    by apply elem_of_selected.
Qed.

Hypothesis Hunique : unique_together db.

Lemma qualifying_summary_by_user r1 r2 : Q r1 → Q r2 → user r1 = user r2 → r1 = r2.
Proof.
  intros (H1 & Hc1 & _) (H2 & Hc2 & _) Hu.
  apply (summary_unique db); [done..|congruence].
Qed.

Lemma distinct_summaries_Permutation :
  remove_dups (fst <$> sel)
  ≡ₚ filter (λ r, course_id r = course_key
                  ∧ qualifies db course_key exclude org_ids group_ids (user r))
            (progress_studentprogress db).
Proof.
  apply NoDup_Permutation.
  - apply NoDup_remove_dups.
  - apply NoDup_filter. by apply NoDup_summaries.
  - intros r. rewrite elem_of_remove_dups, elem_of_selected_summaries,
      list_elem_of_filter. unfold Q, qualifying_summary. tauto.
Qed.

Lemma distinct_values_Permutation :
  remove_dups (values <$> sel)
  ≡ₚ (λ r, (summary_entry db r, modified r)) <$> remove_dups (fst <$> sel).
Proof.
  apply NoDup_Permutation.
  - apply NoDup_remove_dups.
  - apply NoDup_fmap_2_strong; [|apply NoDup_remove_dups].
    intros r1 r2 H1 H2 Heq.
    rewrite elem_of_remove_dups, elem_of_selected_summaries in H1, H2.
    apply qualifying_summary_by_user; [done..|].
    by apply (f_equal (λ p, user__id p.1)) in Heq.
  - intros y. rewrite elem_of_remove_dups, elem_of_selected_values,
      list_elem_of_fmap. split.
    + intros (r & HQ & ->). exists r. split; [done|].
      by rewrite elem_of_remove_dups, elem_of_selected_summaries.
    + intros (r & -> & Hr). exists r. split; [|done].
      by rewrite elem_of_remove_dups, elem_of_selected_summaries in Hr.
Qed.

Lemma distinct_values_user_ids :
  NoDup ((λ y : LeaderboardEntry * Z, user__id y.1)
           <$> remove_dups (values <$> sel)).
Proof.
  apply NoDup_fmap_2_strong; [|apply NoDup_remove_dups].
  intros y1 y2 H1 H2 Heq.
  rewrite elem_of_remove_dups, elem_of_selected_values in H1, H2.
  destruct H1 as (r1 & HQ1 & ->), H2 as (r2 & HQ2 & ->).
  simpl in Heq. by rewrite (qualifying_summary_by_user r1 r2).
Qed.
End selected_rows.

(** X1: [get_num_users_started] is the number of distinct users that
    qualify under the filters and have a summary for the course, with or
    without an organization or group filter. *)
Theorem get_num_users_started_counts_users db course_key exclude org_ids
    group_ids :
  unique_together db →
  get_num_users_started db course_key (Some exclude) org_ids group_ids
  = Ok (Z.of_nat (length (qualifying_users db course_key exclude org_ids
                            group_ids))).
Proof.
  intros Hunique. rewrite get_num_users_started_selected. do 2 f_equal.
  rewrite (distinct_summaries_Permutation db course_key exclude org_ids
             group_ids Hunique).
  unfold qualifying_users.
  rewrite (remove_dups_NoDup (user <$> _)) by by apply NoDup_users_of_course.
  by rewrite length_fmap.
Qed.

(** X6: every entry that [generate_leaderboard] returns is the entry of a
    qualifying summary: no excluded, inactive or unenrolled user, and nobody
    outside the given organizations or groups, is ever listed. *)
Theorem generate_leaderboard_lists_qualifying db course_key count exclude
    org_ids group_ids board e :
  generate_leaderboard db course_key count (Some exclude) org_ids group_ids
  = Ok board →
  e ∈ board →
  ∃ r, qualifying_summary db course_key exclude org_ids group_ids r
       ∧ e = summary_entry db r.
Proof.
  rewrite generate_leaderboard_selected. intros Hboard He.
  destruct (slice count _) as [q|] eqn:Hq; [|done].
  injection Hboard as <-.
  apply list_elem_of_fmap in He as (y & -> & Hy).
  apply (sublist_elem_of _ _ _ (slice_Ok_sublist _ _ _ Hq)) in Hy.
  rewrite merge_sort_Permutation in Hy.
  assert (y ∈ values <$> selected db course_key exclude org_ids group_ids)
    as Hv.
  { destruct (truthy group_ids); [by rewrite elem_of_remove_dups in Hy|done]. }
  apply elem_of_selected_values in Hv as (r & HQ & ->). eauto.
Qed.

(** X7: with a non-empty group filter, no user is listed twice on the
    leaderboard. *)
Theorem generate_leaderboard_distinct_users db course_key count exclude
    org_ids group_ids board :
  unique_together db →
  truthy group_ids = true →
  generate_leaderboard db course_key count (Some exclude) org_ids group_ids
  = Ok board →
  NoDup (user__id <$> board).
Proof.
  intros Hunique Hgrp. rewrite generate_leaderboard_selected, Hgrp.
  intros Hboard. destruct (slice count _) as [q|] eqn:Hq; [|done].
  injection Hboard as <-. rewrite <- list_fmap_compose.
  apply slice_Ok_sublist in Hq.
  eapply sublist_NoDup; [|by apply sublist_fmap_2].
  rewrite merge_sort_Permutation.
  by apply distinct_values_user_ids.
Qed.

(** X8: without a limit the leaderboard has at least as many entries as
    [get_num_users_started] counts users, and exactly as many under a
    non-empty group filter. *)
Theorem generate_leaderboard_length db course_key exclude org_ids group_ids :
  unique_together db →
  ∃ board n,
    generate_leaderboard db course_key None (Some exclude) org_ids group_ids
    = Ok board
    ∧ get_num_users_started db course_key (Some exclude) org_ids group_ids
      = Ok (Z.of_nat n)
    ∧ n ≤ length board
    ∧ (truthy group_ids = true → n = length board).
Proof.
  intros Hunique. eexists _, _. split_and!.
  - rewrite generate_leaderboard_selected. reflexivity.
  - apply get_num_users_started_selected.
  - rewrite length_fmap, merge_sort_Permutation.
    destruct (truthy group_ids).
    + rewrite (distinct_values_Permutation db course_key exclude org_ids
                 group_ids Hunique).
      by rewrite length_fmap.
    + etrans; [apply length_remove_dups_le|]. by rewrite !length_fmap.
  - intros ->. rewrite length_fmap, merge_sort_Permutation.
    rewrite (distinct_values_Permutation db course_key exclude org_ids
               group_ids Hunique).
    by rewrite length_fmap.
Qed.

(** X10: the leaderboard and the positions agree: a user listed before
    another never has the larger position, and [get_user_position] reports
    the completions shown on the leaderboard. *)
Theorem generate_leaderboard_agrees_with_positions db course_key count exclude
    org_ids group_ids board i j ea eb :
  unique_together db →
  (∀ n, count = Some n → (0 ≤ n)%Z) →
  generate_leaderboard db course_key count (Some exclude) org_ids group_ids
  = Ok board →
  board !! i = Some ea → board !! j = Some eb → i < j →
  ∃ pa pb,
    get_user_position db course_key (user__id ea) (Some exclude) = Ok pa
    ∧ get_user_position db course_key (user__id eb) (Some exclude) = Ok pb
    ∧ data_completions pa = entry_completions ea
    ∧ data_completions pb = entry_completions eb
    ∧ (data_position pa ≤ data_position pb)%Z.
Proof.
  intros Hunique Hcount Hboard Hi Hj Hij.
  destruct (leaderboard_sorted_summaries db course_key exclude org_ids
              group_ids Hunique) as (S & Hsorted & Hmem & HS).
  rewrite (HS count Hcount) in Hboard. injection Hboard as <-.
  apply list_lookup_fmap_Some in Hi as (ra & -> & Hi).
  apply list_lookup_fmap_Some in Hj as (rb & -> & Hj).
  apply lookup_truncate in Hi as [Hi _]. apply lookup_truncate in Hj as [Hj _].
  pose proof (StronglySorted_lookup _ _ _ _ _ _ Hsorted Hi Hj Hij) as Horder.
  apply list_elem_of_lookup_2, Hmem in Hi as (Hra & Hca & _).
  apply list_elem_of_lookup_2, Hmem in Hj as (Hrb & Hcb & _).
  simpl. eexists _, _. split_and!.
  - rewrite <- Hca. by apply get_user_position_users_above.
  - rewrite <- Hcb. by apply get_user_position_users_above.
  - done.
  - done.
  - simpl. rewrite Hca, Hcb.
    pose proof (users_above_le db course_key exclude ra rb Horder). lia.
Qed.

(** ** Totals without the group filter *)

Lemma sum_completions_app (l1 l2 : list Z) :
  sum_completions (l1 ++ l2) = (sum_completions l1 + sum_completions l2)%Z.
Proof. induction l1 as [|x l1 IH]; simpl; [done|]. rewrite IH. lia. Qed.

Lemma sum_completions_replicate (n : nat) (x : Z) :
  sum_completions (replicate n x) = (x * Z.of_nat n)%Z.
Proof. induction n as [|n IH]; simpl; [lia|]. rewrite IH. lia. Qed.

Lemma filter_replicate {A} (P : A → Prop) `{∀ x, Decision (P x)} n (x : A) :
  filter P (replicate n x) = if decide (P x) then replicate n x else [].
Proof.
  induction n as [|n IH]; simpl; [by destruct (decide (P x))|].
  rewrite filter_cons, IH. by destruct (decide (P x)).
Qed.

Lemma bind_replicate {A B} (f : A → list B) n m (x : A) (y : B) :
  f x = replicate m y → replicate n x ≫= f = replicate (n * m) y.
Proof.
  intros Hf. induction n as [|n IH]; [done|].
  change (replicate (S n) x) with (x :: replicate n x).
  rewrite bind_cons, IH, Hf. by rewrite <- replicate_add.
Qed.

Section repeated_rows.
Context (db : Database) (course_key : string).
Context (exclude : list Z) (org_ids : option (list Z)).

(** What the joins and filters make of one summary row. *)
Let joined (r : StudentProgress) : list Row :=
  let queryset :=
    filter (λ row : Row, user row.1 ∉ exclude)
           ((join_user db r ≫= where_user_is_active)
              ≫= join_courseenrollment db course_key) in
  if truthy org_ids then filter_organizations_in (ids_of org_ids) queryset
  else queryset.

Lemma joined_copies r :
  fst <$> joined r = replicate (copies db course_key exclude org_ids r) r.
Proof.
  unfold joined, copies, join_user.
  destruct (auth_user db !! user r) as [u|]; csimpl.
  2: { by destruct (truthy org_ids). }
  unfold where_user_is_active. simpl.
  destruct (is_active u); csimpl.
  2: { by destruct (truthy org_ids). }
  rewrite app_nil_r. unfold join_courseenrollment. simpl.
  rewrite (const_fmap _ _ (r, u)) by done.
  rewrite filter_replicate. simpl.
  destruct (decide (user r ∈ exclude)) as [Hex|Hex].
  - rewrite decide_False by tauto. by destruct (truthy org_ids).
  - rewrite decide_True by done.
    destruct (truthy org_ids).
    + unfold filter_organizations_in.
      rewrite (bind_replicate _ _
                 (length (filter (λ o, o ∈ ids_of org_ids) (organizations u)))
                 _ (r, u)).
      * by rewrite fmap_replicate.
      * simpl. by apply const_fmap.
    + rewrite fmap_replicate. simpl. by rewrite Nat.mul_1_r.
Qed.

Lemma selected_joined (l : list StudentProgress) :
  (let queryset :=
     filter (λ row : Row, user row.1 ∉ exclude)
            (((l ≫= join_user db) ≫= where_user_is_active)
               ≫= join_courseenrollment db course_key) in
   if truthy org_ids then filter_organizations_in (ids_of org_ids) queryset
   else queryset)
  = l ≫= joined.
Proof.
  cbv zeta. induction l as [|r l IH]; [by destruct (truthy org_ids)|].
  rewrite !bind_cons, !bind_app, filter_app, <- IH. unfold joined.
  destruct (truthy org_ids); [|done].
  unfold filter_organizations_in. by rewrite bind_app.
Qed.

Lemma sum_completions_joined (l : list StudentProgress) :
  sum_completions (completions <$> (fst <$> (l ≫= joined)))
  = sum_completions
      ((λ r, completions r
             * Z.of_nat (copies db course_key exclude org_ids r))%Z <$> l).
Proof.
  induction l as [|r l IH]; [done|].
  rewrite bind_cons, !fmap_app, sum_completions_app, IH, joined_copies.
  rewrite fmap_replicate, sum_completions_replicate. done.
Qed.
End repeated_rows.

(** X9: without a group filter, [get_total_completions] adds the completions
    of each summary of the course once per row its joins produce: once per
    active enrollment of the user in the course and, under an organization
    filter, per membership in one of the organizations. *)
Theorem get_total_completions_repeats_rows db course_key exclude org_ids
    group_ids :
  truthy group_ids = false →
  get_total_completions db course_key (Some exclude) org_ids group_ids
  = Ok (sum_completions
          ((λ r, completions r
                 * Z.of_nat (copies db course_key exclude org_ids r))%Z
             <$> filter (λ r, course_id r = course_key)
                        (progress_studentprogress db))).
Proof.
  intros Hgrp. unfold get_total_completions. simpl. rewrite Hgrp.
  unfold instances, filter_enrolled. cbv zeta. f_equal.
  rewrite <- sum_completions_joined.
  by rewrite <- (selected_joined db course_key exclude org_ids).
Qed.

(** ** How often the leaderboard lists a summary *)

Lemma fmap_Permutation_cancel {A B} (f : A → B) (l1 l2 : list A) :
  (∀ x y, x ∈ l1 → y ∈ l2 → f x = f y → x = y) →
  f <$> l1 ≡ₚ f <$> l2 → l1 ≡ₚ l2.
Proof.
  revert l2. induction l1 as [|x l1 IH]; intros l2 Hinj Hperm.
  - apply Permutation_nil_l in Hperm. symmetry in Hperm.
    apply fmap_nil_inv in Hperm. by subst.
  - assert (f x ∈ f <$> l2) as (y & Heq & Hy)%list_elem_of_fmap.
    { rewrite <- Hperm. simpl. left. }
    assert (x = y) as <-.
    { apply Hinj; [left|done..]. }
    apply elem_of_Permutation in Hy as [k Hk].
    rewrite Hk. constructor. apply IH.
    + intros x' y' Hx' Hy'. apply Hinj; [by right|].
      rewrite Hk. by right.
    + rewrite Hk in Hperm. simpl in Hperm.
      by apply Permutation_cons_inv in Hperm.
Qed.

Lemma selected_copies db course_key exclude org_ids group_ids :
  truthy group_ids = false →
  fst <$> selected db course_key exclude org_ids group_ids
  = filter (λ r, course_id r = course_key) (progress_studentprogress db)
      ≫= (λ r, replicate (copies db course_key exclude org_ids r) r).
Proof.
  intros Hgrp. unfold selected, filter_enrolled. cbv zeta. rewrite Hgrp.
  rewrite (selected_joined db course_key exclude org_ids).
  induction (filter _ (progress_studentprogress db)) as [|r l IH]; [done|].
  rewrite !bind_cons, fmap_app, IH. f_equal.
  apply (joined_copies db course_key exclude org_ids).
Qed.

Section listed.
Context (db : Database) (course_key : string).
Context (exclude : list Z) (org_ids group_ids : option (list Z)).
Hypothesis Hunique : unique_together db.

Lemma leaderboard_listed_summaries (summaries : list StudentProgress) :
  (∀ r, r ∈ summaries
        ↔ qualifying_summary db course_key exclude org_ids group_ids r) →
  generate_leaderboard db course_key None (Some exclude) org_ids group_ids
  = Ok (summary_entry db <$> summaries) →
  summaries ≡ₚ listed_summaries db course_key exclude org_ids group_ids.
Proof.
  intros Hmem Hboard.
  set (sel := selected db course_key exclude org_ids group_ids).
  assert (∀ l : list StudentProgress,
            (∀ r, r ∈ l → qualifying_summary db course_key exclude org_ids
                            group_ids r) →
            summary_entry db <$> summaries ≡ₚ summary_entry db <$> l →
            summaries ≡ₚ l) as Hcancel.
  { intros l Hl. apply fmap_Permutation_cancel.
    intros x y Hx Hy Heq.
    apply (qualifying_summary_by_user db course_key exclude org_ids group_ids
             Hunique); [by apply Hmem|by apply Hl|].
    by apply (f_equal user__id) in Heq. }
  rewrite generate_leaderboard_selected in Hboard.
  unfold slice, bind in Hboard. injection Hboard as Hboard.
  revert Hboard. unfold listed_summaries.
  destruct (truthy group_ids) eqn:Hgrp; intros Hboard.
  - rewrite <- (distinct_summaries_Permutation db course_key exclude org_ids
                  group_ids Hunique).
    apply Hcancel.
    + intros r. rewrite elem_of_remove_dups.
      apply elem_of_selected_summaries.
    + rewrite <- Hboard, merge_sort_Permutation.
      rewrite (distinct_values_Permutation db course_key exclude org_ids
                 group_ids Hunique).
      by rewrite <- list_fmap_compose.
  - rewrite <- (selected_copies db course_key exclude org_ids group_ids Hgrp).
    apply Hcancel.
    + intros r. apply elem_of_selected_summaries.
    + rewrite <- Hboard, merge_sort_Permutation.
      rewrite <- !list_fmap_compose.
      apply reflexive_eq, list_fmap_ext. intros i row Hrow.
      apply list_elem_of_lookup_2, elem_of_selected in Hrow as [_ Hu].
      unfold compose. by rewrite (values_summary db).
Qed.
End listed.


(** ** [get_actual_completions] beyond the empty setting *)

Lemma prefix_append (p s : string) :
  String.prefix p s = true ↔ ∃ rest, s = p +:+ rest.
Proof.
  revert s. induction p as [|a p IH]; intros s.
  - split; [|by destruct s]. intros _. by exists s.
  - destruct s as [|b s]; simpl.
    + split; [done|]. intros [rest Hrest]. discriminate.
    + destruct (Ascii.ascii_dec a b) as [->|Hab].
      * rewrite IH. split; intros [rest Hrest]; exists rest.
        -- by rewrite Hrest.
        -- by injection Hrest.
      * split; [done|]. intros [rest Hrest]. injection Hrest as ??. done.
Qed.

Lemma contains_nil (needle : string) :
  contains needle EmptyString = String.prefix needle EmptyString || false.
Proof. reflexivity. Qed.

Lemma contains_cons (needle : string) a (rest : string) :
  contains needle (String a rest)
  = String.prefix needle (String a rest) || contains needle rest.
Proof. reflexivity. Qed.

Lemma contains_occurs_in (needle haystack : string) :
  contains needle haystack = true ↔ occurs_in needle haystack.
Proof.
  unfold occurs_in. induction haystack as [|a h IH].
  - rewrite contains_nil, orb_false_r, prefix_append. split.
    + intros [rest Hrest]. by exists EmptyString, rest.
    + intros ([|b before] & after & Heq); [by exists after|discriminate].
  - rewrite contains_cons, orb_true_iff, IH, prefix_append. split.
    + intros [[rest Hrest]|(before & after & Heq)].
      * by exists EmptyString, rest.
      * exists (String a before), after. by rewrite Heq.
    + intros ([|b before] & after & Heq).
      * left. by exists after.
      * right. exists before, after. by injection Heq.
Qed.

Lemma contains_empty (haystack : string) : contains EmptyString haystack = true.
Proof. apply contains_occurs_in. by exists EmptyString, haystack. Qed.

Lemma lstrip_blank (s : string) : blank s = true → lstrip s = EmptyString.
Proof.
  induction s as [|a s IH]; simpl; [done|].
  intros [Ha Hs]%andb_true_iff. rewrite Ha. by apply IH.
Qed.

Lemma strip_blank (s : string) : blank s = true → strip s = EmptyString.
Proof. intros Hs. unfold strip. rewrite (lstrip_blank s Hs). reflexivity. Qed.

(** The completions kept for a non-empty list of categories. *)
Lemma get_actual_completions_kept item items objects :
  get_actual_completions (Some (item :: items)) objects
  = Ok (filter (λ c, Forall (λ item, contains (strip item) (content_id c)
                                     = false) (item :: items))
               objects).
Proof.
  unfold get_actual_completions, reduce. simpl. f_equal.
  apply list_filter_iff. intros c. rewrite Q_holds_foldl. simpl.
  rewrite Forall_cons, orb_false_iff. apply and_iff_compat_l.
  induction items as [|i items IH]; simpl.
  - split; [constructor|done].
  - rewrite Forall_cons, orb_false_iff. by rewrite IH.
Qed.

(** X11: a configured category that is empty or only whitespace makes
    [get_actual_completions] return no completion at all. *)
Theorem get_actual_completions_blank_category categories objects item :
  item ∈ categories → blank item = true →
  get_actual_completions (Some categories) objects = Ok [].
Proof.
  intros Hitem Hblank. destruct categories as [|i items].
  { by apply elem_of_nil in Hitem. }
  rewrite get_actual_completions_kept. f_equal.
  apply filter_none. intros c _ Hall.
  rewrite Forall_forall in Hall. specialize (Hall item Hitem).
  rewrite (strip_blank item Hblank), contains_empty in Hall. done.
Qed.

(** X12: [get_actual_completions] depends only on the set of configured
    categories, not on their order or repetitions. *)
Theorem get_actual_completions_same_categories categories1 categories2
    objects :
  (∀ item, item ∈ categories1 ↔ item ∈ categories2) →
  get_actual_completions (Some categories1) objects
  = get_actual_completions (Some categories2) objects.
Proof.
  intros Hsame.
  destruct categories1 as [|i1 items1], categories2 as [|i2 items2].
  - done.
  - exfalso. apply (elem_of_nil i2), Hsame. left.
  - exfalso. apply (elem_of_nil i1), Hsame. left.
  - rewrite !get_actual_completions_kept. f_equal.
    apply list_filter_iff. intros c. rewrite !Forall_forall.
    split; intros Hall item Hitem; apply Hall, Hsame, Hitem.
Qed.

(** X13: [get_actual_completions] returns a sublist of the table, keeping
    exactly the completions whose [content_id] contains none of the
    categories, each stripped of surrounding whitespace, as a substring. *)
Theorem get_actual_completions_by_substring categories objects kept :
  get_actual_completions (Some categories) objects = Ok kept →
  kept `sublist_of` objects
  ∧ ∀ c, c ∈ kept
         ↔ c ∈ objects
           ∧ ∀ item, item ∈ categories →
                     ¬ occurs_in (strip item) (content_id c).
Proof.
  destruct categories as [|i items]; [done|].
  rewrite get_actual_completions_kept. intros [= <-]. split.
  - apply sublist_filter.
  - intros c. rewrite list_elem_of_filter, Forall_forall. split.
    + intros [Hall Hc]. split; [done|]. intros item Hitem Hocc.
      apply contains_occurs_in in Hocc. by rewrite (Hall item Hitem) in Hocc.
    + intros [Hc Hall]. split; [|done]. intros item Hitem.
      destruct (contains (strip item) (content_id c)) eqn:Hcont; [|done].
      exfalso. by apply (Hall item Hitem), contains_occurs_in.
Qed.

(** ** The cache of [CustomDomainsRedirectMiddleware] over time *)

Lemma lookup_live_agree {V} now now' key (store : gmap string (Entry V)) v v' :
  lookup_live now key store = Some v →
  lookup_live now' key store = Some v' → v = v'.
Proof.
  unfold lookup_live. destruct (store !! key) as [e|]; [|done].
  do 2 case_decide; congruence.
Qed.

Lemma lookup_live_expired {V} now now' key (store : gmap string (Entry V))
    v t :
  (now + t ≤ now')%Z →
  lookup_live now' key
    (<[key := {| entry_value := v; entry_expires := expiry now (Some t) |}]>
       store) = None.
Proof.
  intros Hlate. unfold lookup_live. rewrite lookup_insert_eq.
  rewrite decide_False; [done|]. unfold live. simpl. lia.
Qed.

(** X14: whenever [CustomDomainsRedirectMiddleware.process_request] answers
    with a response, the hostname ends with [SITE_NAME] and the response is a
    temporary redirect to the https URL of a non-empty domain: the live
    cached value for the hostname or, when none is live, the domain that the
    [AlternativeDomain] table maps the hostname to.  The default cache is
    left as it was. *)
Theorem custom_domains_redirect_justified settings table now request w
    response :
  let hostname := get_host request in
  let cache_key :=
    format_cache_key (CUSTOM_DOMAINS_REDIRECT_CACHE_KEY_PREFIX settings)
                     hostname in
  let result :=
    CustomDomainsRedirectMiddleware.process_request settings table now
      request w in
  result.1 = Ok (Some response) →
  endswith hostname (SITE_NAME settings) = true
  ∧ (∃ custom_domain,
       nonempty custom_domain = true
       ∧ response = HttpResponseRedirect ("https://" +:+ custom_domain)
       ∧ (lookup_live now cache_key (general w) = Some custom_domain
          ∨ (lookup_live now cache_key (general w) = None
             ∧ table !! hostname = Some custom_domain)))
  ∧ default_cache result.2 = default_cache w.
Proof.
  intros hostname cache_key result. unfold result.
  destruct (endswith hostname (SITE_NAME settings)) eqn:Hsuffix.
  - destruct (lookup_live now cache_key (general w)) as [d|] eqn:Hlive.
    + rewrite (process_request_hit settings request Hsuffix table now w d Hlive).
      simpl. destruct (nonempty d) eqn:Hd; [|done].
      intros [= <-]. split_and!; [done| |done]. exists d. auto.
    + rewrite (process_request_miss settings request Hsuffix table now w Hlive).
      simpl. fold hostname.
      destruct (table !! hostname) as [d|] eqn:Htable; simpl; [|done].
      destruct (nonempty d) eqn:Hd; [|done].
      intros [= <-]. split_and!; [done| |done]. exists d. auto.
  - unfold CustomDomainsRedirectMiddleware.process_request.
    fold hostname. rewrite Hsuffix. unfold ret. done.
Qed.

(** X15: for a hostname under [SITE_NAME], while the cached entry is live
    the answer of the first request is repeated, whatever the
    [AlternativeDomain] table holds by then; the second request only reads
    the cache. *)
Theorem custom_domains_answer_repeats settings table table' now now' request
    w :
  let cache_key :=
    format_cache_key (CUSTOM_DOMAINS_REDIRECT_CACHE_KEY_PREFIX settings)
                     (get_host request) in
  let first :=
    CustomDomainsRedirectMiddleware.process_request settings table now
      request w in
  let second :=
    CustomDomainsRedirectMiddleware.process_request settings table' now'
      request first.2 in
  endswith (get_host request) (SITE_NAME settings) = true →
  is_Some (lookup_live now' cache_key (general first.2)) →
  second.1 = first.1
  ∧ trace second.2 = trace first.2 ++ [CacheGet "general" cache_key]
  ∧ general second.2 = general first.2.
Proof.
  intros cache_key first second Hsuffix [d' Hd'].
  unfold second.
  rewrite (process_request_hit settings request Hsuffix table' now' first.2
             d' Hd'). simpl. split_and!; [|done..].
  revert Hd'. unfold first.
  destruct (lookup_live now cache_key (general w)) as [d|] eqn:Hlive.
  - rewrite (process_request_hit settings request Hsuffix table now w d Hlive).
    simpl. intros Hd'. by rewrite (lookup_live_agree _ _ _ _ _ _ Hlive Hd').
  - rewrite (process_request_miss settings request Hsuffix table now w Hlive).
    simpl. unfold lookup_live. fold cache_key. rewrite lookup_insert_eq. simpl.
    case_decide; [|done]. intros [= <-]. done.
Qed.

(** X16: once the configured timeout has passed since a miss stored its
    result, the next request queries the table again, answers from the
    table as it is then, and stores that answer. *)
Theorem custom_domains_requeries_after_timeout settings table table' now now'
    request w t :
  let hostname := get_host request in
  let cache_key :=
    format_cache_key (CUSTOM_DOMAINS_REDIRECT_CACHE_KEY_PREFIX settings)
                     hostname in
  let first :=
    CustomDomainsRedirectMiddleware.process_request settings table now
      request w in
  let second :=
    CustomDomainsRedirectMiddleware.process_request settings table' now'
      request first.2 in
  endswith hostname (SITE_NAME settings) = true →
  CUSTOM_DOMAINS_REDIRECT_CACHE_TIMEOUT settings = Some t →
  lookup_live now cache_key (general w) = None →
  (now + t ≤ now')%Z →
  second.1 = Ok (redirect_to_domain (default EmptyString (table' !! hostname)))
  ∧ trace second.2 = trace first.2 ++ [CacheGet "general" cache_key;
                                       QueryAlternativeDomain hostname;
                                       CacheSet "general" cache_key]
  ∧ lookup_live now' cache_key (general second.2)
    = if decide (0 < t)%Z
      then Some (default EmptyString (table' !! hostname)) else None.
Proof.
  intros hostname cache_key first second Hsuffix Htimeout Hmiss Hlate.
  assert (lookup_live now' cache_key (general first.2) = None) as Hexpired.
  { unfold first.
    rewrite (process_request_miss settings request Hsuffix table now w Hmiss).
    simpl. fold hostname cache_key. rewrite Htimeout.
    by apply lookup_live_expired. }
  unfold second.
  rewrite (process_request_miss settings request Hsuffix table' now' first.2
             Hexpired).
  simpl. split_and!; [done..|].
  fold hostname cache_key. rewrite Htimeout. unfold lookup_live.
  rewrite lookup_insert_eq. unfold live. simpl.
  destruct (decide (0 < t)%Z); case_decide; (done || lia).
Qed.

(** ** [RedirectMiddleware] *)

Section redirect_policy.
Import RedirectMiddleware.
Context (settings : Settings) (request : HttpRequest).

Lemma map_result_in_path whitelist strings :
  strings_of whitelist = Some strings →
  map_result (in_path request) whitelist
  = Ok ((λ s, contains s (path request)) <$> strings).
Proof.
  revert strings. induction whitelist as [|p whitelist IH]; intros strings.
  - by intros [= <-].
  - destruct p as [|n|s]; simpl; [done..|].
    destruct (strings_of whitelist) as [rest|]; [|done].
    intros [= <-]. by rewrite (IH rest).
Qed.

Lemma any_contains (strings : list string) :
  any ((λ s, contains s (path request)) <$> strings) = true
  ↔ Exists (λ s, occurs_in s (path request)) strings.
Proof.
  unfold any. induction strings as [|s strings IH]; simpl.
  - split; [done|]. by intros ?%Exists_nil.
  - rewrite Exists_cons, orb_true_iff, IH, contains_occurs_in. done.
Qed.

Lemma main_site_policy_configured whitelist strings s main :
  MAIN_SITE_REDIRECT_WHITELIST settings = Some whitelist →
  strings_of whitelist = Some strings →
  site request = Some s → SITE_ID settings = Some main →
  main_site_policy settings request
  = Ok (bool_decide (site_id s = main)
        && negb (any ((λ s, contains s (path request)) <$> strings))).
Proof.
  intros Hwl Hstrings Hsite Hmain. unfold main_site_policy.
  rewrite Hwl. simpl. rewrite (map_result_in_path _ _ Hstrings). simpl.
  by rewrite Hsite, Hmain.
Qed.

Lemma main_site_policy_without_site :
  site request = None → ∃ e, main_site_policy settings request = Raise e.
Proof.
  intros Hsite. unfold main_site_policy.
  destruct (MAIN_SITE_REDIRECT_WHITELIST settings) as [whitelist|]; simpl;
    [|by eexists].
  destruct (map_result _ _); simpl; [|by eexists].
  rewrite Hsite. by eexists.
Qed.

Lemma process_request_of_policy table now w :
  process_request settings table now request w
  = match main_site_policy settings request with
    | Ok true => (Ok (Some (HttpResponseRedirect admin_url)), w)
    | _ => path_redirect settings table now request w
    end.
Proof.
  unfold process_request, bindM, try_except, lift.
  by destruct (main_site_policy settings request) as [[]|].
Qed.
End redirect_policy.

(** X17: with a whitelist of strings, a request on the main site whose path
    contains no whitelist entry is redirected to the admin URL before any
    cache or table is touched. *)
Theorem main_site_redirects_to_admin settings table now request w whitelist
    strings s :
  MAIN_SITE_REDIRECT_WHITELIST settings = Some whitelist →
  strings_of whitelist = Some strings →
  site request = Some s → SITE_ID settings = Some (site_id s) →
  Forall (λ entry, ¬ occurs_in entry (path request)) strings →
  RedirectMiddleware.process_request settings table now request w
  = (Ok (Some (HttpResponseRedirect "https://youngsphere.com/admin/")), w).
Proof.
  intros Hwl Hstrings Hsite Hmain Hnone.
  rewrite process_request_of_policy.
  rewrite (main_site_policy_configured settings request whitelist strings s
             (site_id s)) by done.
  rewrite bool_decide_eq_true_2 by done. simpl.
  destruct (RedirectMiddleware.any _) eqn:Hany; [|done].
  apply any_contains, Exists_exists in Hany as (entry & Hentry & Hocc).
  rewrite Forall_forall in Hnone. by destruct (Hnone entry Hentry).
Qed.

(** X18: with a whitelist of strings, a request on another site, or whose
    path contains a whitelist entry, goes on to the path redirects. *)
Theorem whitelisted_or_other_site_passes settings table now request w
    whitelist strings s main :
  MAIN_SITE_REDIRECT_WHITELIST settings = Some whitelist →
  strings_of whitelist = Some strings →
  site request = Some s → SITE_ID settings = Some main →
  site_id s ≠ main ∨ Exists (λ entry, occurs_in entry (path request)) strings →
  RedirectMiddleware.process_request settings table now request w
  = RedirectMiddleware.path_redirect settings table now request w.
Proof.
  intros Hwl Hstrings Hsite Hmain Hpass.
  rewrite process_request_of_policy.
  rewrite (main_site_policy_configured settings request whitelist strings s
             main) by done.
  destruct Hpass as [Hother|Hlisted].
  - by rewrite bool_decide_eq_false_2.
  - apply any_contains in Hlisted. rewrite Hlisted.
    by rewrite andb_false_r.
Qed.

(** X19: a request without a site makes [RedirectMiddleware.process_request]
    raise [AttributeError], leaving the world as it was: the [try] block
    only covers the main-site policy. *)
Theorem request_without_site_raises settings table now request w :
  site request = None →
  RedirectMiddleware.process_request settings table now request w
  = (Raise AttributeError, w).
Proof.
  intros Hsite. rewrite process_request_of_policy.
  destruct (main_site_policy_without_site settings request Hsite) as [e ->].
  unfold RedirectMiddleware.path_redirect, bindM, RedirectMiddleware.lift.
  by rewrite Hsite.
Qed.

(** ** Path redirects and their cache *)

Lemma foldl_insert_lookup (rules : list Redirect) (d : gmap string string)
    (p : string) :
  foldl (λ d r, <[old_path r := new_path r]> d) d rules !! p
  = match last (new_path <$> filter (λ r, old_path r = p) rules) with
    | Some target => Some target
    | None => d !! p
    end.
Proof.
  revert d. induction rules as [|r rules IH]; intros d; [done|].
  simpl. rewrite IH, filter_cons.
  destruct (decide (old_path r = p)) as [<-|Hne].
  - rewrite fmap_cons, last_cons.
    destruct (last (new_path <$> _)); [done|]. by rewrite lookup_insert_eq.
  - destruct (last (new_path <$> _)); [done|]. by rewrite lookup_insert_ne.
Qed.

Lemma redirects_of_lookup table s p :
  RedirectMiddleware.redirects_of table s !! p
  = last (new_path <$> filter (λ r, redirect_site r = site_id s
                                    ∧ old_path r = p) table).
Proof.
  unfold RedirectMiddleware.redirects_of.
  rewrite foldl_insert_lookup, list_filter_filter, lookup_empty.
  rewrite (list_filter_iff (λ r, old_path r = p ∧ redirect_site r = site_id s)
             (λ r, redirect_site r = site_id s ∧ old_path r = p))
    by (intros r; tauto).
  by destruct (last _).
Qed.

(** X20: the mapping built from the [Redirect] table sends a path to the
    [new_path] of the last rule of the site with that [old_path], and has no
    entry exactly when the site has no such rule. *)
Theorem redirects_of_last_rule table s p :
  RedirectMiddleware.redirects_of table s !! p
  = last (new_path <$> filter (λ r, redirect_site r = site_id s
                                    ∧ old_path r = p) table)
  ∧ (RedirectMiddleware.redirects_of table s !! p = None
     ↔ ∀ r, r ∈ table → redirect_site r = site_id s → old_path r ≠ p).
Proof.
  split; [apply redirects_of_lookup|].
  rewrite redirects_of_lookup, last_None. split.
  - intros Hnil%fmap_nil_inv r Hr Hs Hp.
    by apply (filter_nil_not_elem_of _ _ r Hnil).
  - intros Hnone. rewrite filter_none; [done|].
    intros r Hr [Hs Hp]. by apply (Hnone r).
Qed.

Section path_redirects.
Import RedirectMiddleware.
Context (settings : Settings) (request : HttpRequest) (s : Site).
Hypothesis Hsite : site request = Some s.
Let cache_key :=
  format_cache_key (REDIRECT_CACHE_KEY_PREFIX settings) (domain s).

Lemma path_redirect_hit table now w redirects :
  lookup_live now cache_key (default_cache w) = Some redirects →
  path_redirect settings table now request w
  = (Ok (redirect_to_path redirects (path request)),
     {| general := general w; default_cache := default_cache w;
        trace := trace w ++ [CacheGet "default" cache_key] |}).
Proof.
  intros Hhit. unfold path_redirect, bindM, lift. rewrite Hsite. simpl.
  fold cache_key. unfold cache_get, bindM, emit. simpl. rewrite Hhit.
  unfold ret, redirect_to_path. simpl.
  destruct (redirects !! path request) as [target|]; [|done].
  by destruct (nonempty target).
Qed.

Lemma path_redirect_miss table now w :
  lookup_live now cache_key (default_cache w) = None →
  path_redirect settings table now request w
  = (Ok (redirect_to_path (redirects_of table s) (path request)),
     {| general := general w;
        default_cache :=
          <[cache_key := {| entry_value := redirects_of table s;
                            entry_expires :=
                              expiry now (REDIRECT_CACHE_TIMEOUT settings) |}]>
            (default_cache w);
        trace := trace w ++ [CacheGet "default" cache_key;
                             QueryRedirect (site_id s);
                             CacheSet "default" cache_key] |}).
Proof.
  intros Hmiss. unfold path_redirect, bindM, lift. rewrite Hsite. simpl.
  fold cache_key. unfold cache_get, bindM, emit. simpl. rewrite Hmiss.
  unfold cache_set, bindM, emit, ret, redirect_to_path. simpl.
  rewrite <- !app_assoc. simpl.
  destruct (redirects_of table s !! path request) as [target|]; [|done].
  by destruct (nonempty target).
Qed.
End path_redirects.

(** X21: on a cache miss the site's mapping is stored under the site's key
    with the configured timeout after one query of the [Redirect] table,
    whatever the request path; a request whose path is the [old_path] of no
    rule of its site, or whose last such rule has an empty [new_path], is let
    through. *)
Theorem path_redirect_miss_stores_mapping settings table now request w s :
  let cache_key :=
    format_cache_key (REDIRECT_CACHE_KEY_PREFIX settings) (domain s) in
  let result := RedirectMiddleware.path_redirect settings table now request w in
  site request = Some s →
  lookup_live now cache_key (default_cache w) = None →
  default_cache result.2
  = <[cache_key := {| entry_value := RedirectMiddleware.redirects_of table s;
                      entry_expires :=
                        expiry now (REDIRECT_CACHE_TIMEOUT settings) |}]>
      (default_cache w)
  ∧ trace result.2 = trace w ++ [CacheGet "default" cache_key;
                                 QueryRedirect (site_id s);
                                 CacheSet "default" cache_key]
  ∧ ((∀ target,
        last (new_path <$> filter (λ r, redirect_site r = site_id s
                                        ∧ old_path r = path request) table)
        = Some target → target = EmptyString) →
     result.1 = Ok None).
Proof.
  intros cache_key result Hsite Hmiss. unfold result.
  rewrite (path_redirect_miss settings request s Hsite table now w Hmiss).
  simpl. split_and!; [done..|].
  intros Hempty. unfold redirect_to_path. rewrite redirects_of_lookup.
  destruct (last _) as [target|]; [|done].
  by rewrite (Hempty target eq_refl).
Qed.

(** X22: while the cached mapping of a site is live, a second request gets
    the answer of the first, whatever the [Redirect] table holds by then,
    and only reads the cache. *)
Theorem path_redirect_answer_repeats settings table table' now now' request w
    s :
  let cache_key :=
    format_cache_key (REDIRECT_CACHE_KEY_PREFIX settings) (domain s) in
  let first := RedirectMiddleware.path_redirect settings table now request w in
  let second :=
    RedirectMiddleware.path_redirect settings table' now' request first.2 in
  site request = Some s →
  is_Some (lookup_live now' cache_key (default_cache first.2)) →
  second.1 = first.1
  ∧ trace second.2 = trace first.2 ++ [CacheGet "default" cache_key]
  ∧ default_cache second.2 = default_cache first.2.
Proof.
  intros cache_key first second Hsite [m' Hm'].
  unfold second.
  rewrite (path_redirect_hit settings request s Hsite table' now' first.2
             m' Hm'). simpl. split_and!; [|done..].
  revert Hm'. unfold first.
  destruct (lookup_live now cache_key (default_cache w)) as [m|] eqn:Hlive.
  - rewrite (path_redirect_hit settings request s Hsite table now w m Hlive).
    simpl. intros Hm'. by rewrite (lookup_live_agree _ _ _ _ _ _ Hlive Hm').
  - rewrite (path_redirect_miss settings request s Hsite table now w Hlive).
    simpl. unfold lookup_live. fold cache_key. rewrite lookup_insert_eq. simpl.
    case_decide; [|done]. intros [= <-]. done.
Qed.

(** X23: [RedirectMiddleware.process_request] never changes the general
    cache and never queries the [AlternativeDomain] table; it only adds to
    the trace. *)
Theorem redirect_middleware_leaves_general_cache settings table now request w :
  let result :=
    RedirectMiddleware.process_request settings table now request w in
  general result.2 = general w
  ∧ ∃ events,
      trace result.2 = trace w ++ events
      ∧ ∀ hostname, QueryAlternativeDomain hostname ∉ events.
Proof.
  intros result. unfold result. rewrite process_request_of_policy.
  assert (general (RedirectMiddleware.path_redirect settings table now
                     request w).2 = general w
          ∧ ∃ events,
              trace (RedirectMiddleware.path_redirect settings table now
                       request w).2 = trace w ++ events
              ∧ ∀ hostname, QueryAlternativeDomain hostname ∉ events)
    as Hpath.
  { destruct (site request) as [s|] eqn:Hsite.
    - destruct (lookup_live now
                  (format_cache_key (REDIRECT_CACHE_KEY_PREFIX settings)
                     (domain s)) (default_cache w)) as [m|] eqn:Hlive.
      + rewrite (path_redirect_hit settings request s Hsite table now w m
                   Hlive). simpl. split; [done|].
        eexists. split; [done|]. intros h. rewrite list_elem_of_singleton.
        done.
      + rewrite (path_redirect_miss settings request s Hsite table now w
                   Hlive). simpl. split; [done|].
        eexists. split; [done|]. intros h. rewrite !elem_of_cons, elem_of_nil.
        intros [?|[?|[?|?]]]; done.
    - unfold RedirectMiddleware.path_redirect, bindM, RedirectMiddleware.lift.
      rewrite Hsite. simpl. split; [done|].
      exists []. split; [by rewrite app_nil_r|]. intros h. apply not_elem_of_nil. }
  destruct (RedirectMiddleware.main_site_policy settings request) as [[]|];
    [|done..].
  simpl. split; [done|].
  exists []. split; [by rewrite app_nil_r|]. intros h. apply not_elem_of_nil.
Qed.

(** ** The further statements on the sample data *)

Lemma get_num_users_started_counts_users_witness :
  unique_together sample_db
  ∧ get_num_users_started sample_db "C" (Some [3%Z]) (Some [7%Z; 8%Z]) None
    = Ok 2%Z.
Proof.
  assert (unique_together sample_db) as Hunique.
  { unfold unique_together. compute_done. }
  split; [exact Hunique|].
  apply (get_num_users_started_counts_users sample_db "C" [3%Z]
           (Some [7%Z; 8%Z]) None Hunique).
Defined.

Lemma get_user_position_respects_beats_witness :
  beats summary_b summary_c
  ∧ ∃ pa pb,
      get_user_position sample_db "C" 2 (Some []) = Ok pa
      ∧ get_user_position sample_db "C" 3 (Some []) = Ok pb
      ∧ (data_position pa < data_position pb)%Z.
Proof.
  split; [compute_done|].
  apply (get_user_position_respects_beats sample_db "C" [] summary_b
           summary_c).
  - unfold unique_together. compute_done.
  - compute_done.
  - compute_done.
  - reflexivity.
  - reflexivity.
  - compute_done.
  - compute_done.
  - compute_done.
Defined.

Lemma get_user_position_ties_witness :
  ∃ pa pb,
    get_user_position tied_db "C" 1 (Some []) = Ok pa
    ∧ get_user_position tied_db "C" 4 (Some []) = Ok pb
    ∧ data_position pa = data_position pb.
Proof.
  apply (get_user_position_ties tied_db "C" [] summary_a summary_d).
  - unfold unique_together. compute_done.
  - compute_done.
  - compute_done.
  - reflexivity.
  - reflexivity.
  - reflexivity.
  - reflexivity.
Defined.

Lemma get_user_position_bounds_witness :
  ∃ p,
    get_user_position sample_db "C" 3 (Some []) = Ok p
    ∧ (1 ≤ data_position p
         ≤ Z.of_nat (length (filter (λ r, course_id r = "C")
                                    (progress_studentprogress sample_db))))%Z.
Proof.
  apply (get_user_position_bounds sample_db "C" 3 [] summary_c).
  - unfold unique_together. compute_done.
  - compute_done.
  - reflexivity.
  - reflexivity.
Defined.

Lemma get_user_position_duplicate_rows_witness :
  ¬ unique_together duplicated_db
  ∧ get_user_position duplicated_db "C" 1 (Some [])
    = Raise MultipleObjectsReturned.
Proof.
  split; [unfold unique_together; compute_done|].
  apply (get_user_position_duplicate_rows duplicated_db "C" 1 (Some [])).
  vm_compute. lia.
Defined.

Lemma generate_leaderboard_lists_qualifying_witness :
  ∃ r, qualifying_summary sample_db "C" [3%Z] None None r
       ∧ summary_entry sample_db summary_b = summary_entry sample_db r.
Proof.
  apply (generate_leaderboard_lists_qualifying sample_db "C" (Some 5%Z) [3%Z]
           None None
           [summary_entry sample_db summary_a;
            summary_entry sample_db summary_b]).
  - reflexivity.
  - compute_done.
Defined.

Lemma generate_leaderboard_distinct_users_witness :
  NoDup (user__id <$> [summary_entry sample_db summary_a;
                       summary_entry sample_db summary_b]).
Proof.
  apply (generate_leaderboard_distinct_users sample_db "C" None []
           (Some [7%Z; 8%Z]) (Some [10%Z; 11%Z])).
  - unfold unique_together. compute_done.
  - reflexivity.
  - reflexivity.
Defined.

Lemma generate_leaderboard_length_witness :
  ∃ board n,
    generate_leaderboard sample_db "C" None (Some []) (Some [7%Z; 8%Z]) None
    = Ok board
    ∧ get_num_users_started sample_db "C" (Some []) (Some [7%Z; 8%Z]) None
      = Ok (Z.of_nat n)
    ∧ n ≤ length board
    ∧ (truthy (@None (list Z)) = true → n = length board).
Proof.
  apply (generate_leaderboard_length sample_db "C" [] (Some [7%Z; 8%Z]) None).
  unfold unique_together. compute_done.
Defined.

Lemma get_total_completions_repeats_rows_witness :
  copies sample_db "C" [] (Some [7%Z; 8%Z]) summary_a = 2
  ∧ get_total_completions sample_db "C" (Some []) (Some [7%Z; 8%Z]) None
    = Ok 15%Z.
Proof.
  split; [reflexivity|].
  apply (get_total_completions_repeats_rows sample_db "C" []
           (Some [7%Z; 8%Z]) None).
  reflexivity.
Defined.

Lemma generate_leaderboard_agrees_with_positions_witness :
  ∃ pa pb,
    get_user_position sample_db "C" 2 (Some []) = Ok pa
    ∧ get_user_position sample_db "C" 3 (Some []) = Ok pb
    ∧ data_completions pa = 5%Z
    ∧ data_completions pb = 3%Z
    ∧ (data_position pa ≤ data_position pb)%Z.
Proof.
  apply (generate_leaderboard_agrees_with_positions sample_db "C" None []
           None None
           (summary_entry sample_db <$> [summary_a; summary_b; summary_c])
           1 2 (summary_entry sample_db summary_b)
           (summary_entry sample_db summary_c)).
  - unfold unique_together. compute_done.
  - intros n [=].
  - reflexivity.
  - reflexivity.
  - reflexivity.
  - lia.
Defined.

Lemma get_actual_completions_blank_category_witness :
  blank " " = true
  ∧ get_actual_completions (Some ["group-project"; " "]) sample_completions
    = Ok [].
Proof.
  split; [reflexivity|].
  apply (get_actual_completions_blank_category ["group-project"; " "]
           sample_completions " ").
  - compute_done.
  - reflexivity.
Defined.

Lemma get_actual_completions_same_categories_witness :
  get_actual_completions (Some ["group-project"; "discussion"])
    sample_completions
  = get_actual_completions
      (Some ["discussion"; "group-project"; "discussion"]) sample_completions.
Proof.
  apply (get_actual_completions_same_categories
           ["group-project"; "discussion"]
           ["discussion"; "group-project"; "discussion"] sample_completions).
  intros item. rewrite !elem_of_cons, !elem_of_nil. tauto.
Defined.

Lemma get_actual_completions_by_substring_witness :
  ∃ kept,
    get_actual_completions (Some [" group-project "]) sample_completions
    = Ok kept
    ∧ kept `sublist_of` sample_completions
    ∧ ∀ c, c ∈ kept
           ↔ c ∈ sample_completions
             ∧ ∀ item, item ∈ [" group-project "] →
                       ¬ occurs_in (strip item) (content_id c).
Proof.
  eexists. split; [reflexivity|].
  apply (get_actual_completions_by_substring [" group-project "]
           sample_completions).
  reflexivity.
Defined.

Lemma custom_domains_redirect_justified_witness :
  endswith "school.youngsphere.com" "youngsphere.com" = true
  ∧ (∃ custom_domain,
       nonempty custom_domain = true
       ∧ HttpResponseRedirect "https://school.example.org"
         = HttpResponseRedirect ("https://" +:+ custom_domain)
       ∧ (lookup_live 0 "custom-domain-school.youngsphere.com"
            (general empty_world) = Some custom_domain
          ∨ (lookup_live 0 "custom-domain-school.youngsphere.com"
               (general empty_world) = None
             ∧ (<["school.youngsphere.com" := "school.example.org"]>
                  sample_domains) !! "school.youngsphere.com"
               = Some custom_domain)))
  ∧ default_cache
      (CustomDomainsRedirectMiddleware.process_request sample_settings
         (<["school.youngsphere.com" := "school.example.org"]> sample_domains)
         0 (sample_request "school.youngsphere.com") empty_world).2
    = default_cache empty_world.
Proof.
  apply (custom_domains_redirect_justified sample_settings
           (<["school.youngsphere.com" := "school.example.org"]> sample_domains)
           0 (sample_request "school.youngsphere.com") empty_world
           (HttpResponseRedirect "https://school.example.org")).
  reflexivity.
Defined.

Lemma custom_domains_answer_repeats_witness :
  let first :=
    CustomDomainsRedirectMiddleware.process_request sample_settings
      sample_domains 0 (sample_request "school.youngsphere.com")
      empty_world in
  let second :=
    CustomDomainsRedirectMiddleware.process_request sample_settings
      (<["school.youngsphere.com" := "school.example.org"]> sample_domains)
      60 (sample_request "school.youngsphere.com") first.2 in
  second.1 = first.1
  ∧ trace second.2
    = trace first.2
      ++ [CacheGet "general" "custom-domain-school.youngsphere.com"]
  ∧ general second.2 = general first.2.
Proof.
  apply (custom_domains_answer_repeats sample_settings sample_domains
           (<["school.youngsphere.com" := "school.example.org"]>
              sample_domains)
           0 60 (sample_request "school.youngsphere.com") empty_world).
  - reflexivity.
  - eexists. vm_compute. reflexivity.
Defined.

Lemma custom_domains_requeries_after_timeout_witness :
  let first :=
    CustomDomainsRedirectMiddleware.process_request sample_settings
      sample_domains 0 (sample_request "school.youngsphere.com")
      empty_world in
  let second :=
    CustomDomainsRedirectMiddleware.process_request sample_settings
      (<["school.youngsphere.com" := "school.example.org"]> sample_domains)
      3600 (sample_request "school.youngsphere.com") first.2 in
  first.1 = Ok None
  ∧ second.1 = Ok (Some (HttpResponseRedirect "https://school.example.org")).
Proof.
  split; [reflexivity|].
  pose proof (custom_domains_requeries_after_timeout sample_settings
                sample_domains
                (<["school.youngsphere.com" := "school.example.org"]>
                   sample_domains)
                0 3600 (sample_request "school.youngsphere.com") empty_world
                3600 eq_refl eq_refl eq_refl) as Hsecond.
  cbv zeta in Hsecond. destruct Hsecond as [Hsecond _]; [lia|].
  exact Hsecond.
Defined.

Lemma main_site_redirects_to_admin_witness :
  RedirectMiddleware.process_request main_site_settings sample_rules 0
    (request_for (Some main_site) "/courses") empty_world
  = (Ok (Some (HttpResponseRedirect "https://youngsphere.com/admin/")),
     empty_world).
Proof.
  apply (main_site_redirects_to_admin main_site_settings sample_rules 0
           (request_for (Some main_site) "/courses") empty_world
           [PyStr "/admin"; PyStr "/login"] ["/admin"; "/login"] main_site).
  - reflexivity.
  - reflexivity.
  - reflexivity.
  - reflexivity.
  - repeat constructor; intros Hocc%contains_occurs_in; vm_compute in Hocc;
      discriminate.
Defined.

Lemma whitelisted_or_other_site_passes_witness :
  occurs_in "/login" "/login/next"
  ∧ RedirectMiddleware.process_request main_site_settings sample_rules 0
      (request_for (Some main_site) "/login/next") empty_world
    = RedirectMiddleware.path_redirect main_site_settings sample_rules 0
        (request_for (Some main_site) "/login/next") empty_world.
Proof.
  assert (occurs_in "/login" "/login/next") as Hocc.
  { by exists EmptyString, "/next". }
  split; [exact Hocc|].
  apply (whitelisted_or_other_site_passes main_site_settings sample_rules 0
           (request_for (Some main_site) "/login/next") empty_world
           [PyStr "/admin"; PyStr "/login"] ["/admin"; "/login"] main_site 1).
  - reflexivity.
  - reflexivity.
  - reflexivity.
  - reflexivity.
  - right. apply Exists_cons_tl, Exists_cons_hd, Hocc.
Defined.

Lemma request_without_site_raises_witness :
  RedirectMiddleware.process_request main_site_settings sample_rules 0
    (request_for None "/courses") empty_world
  = (Raise AttributeError, empty_world).
Proof.
  apply (request_without_site_raises main_site_settings sample_rules 0
           (request_for None "/courses") empty_world).
  reflexivity.
Defined.

Lemma path_redirect_miss_stores_mapping_witness :
  let result :=
    RedirectMiddleware.path_redirect main_site_settings sample_rules 0
      (request_for (Some school_site) "/about") empty_world in
  default_cache result.2
  = <["redirects-school.youngsphere.com" :=
        {| entry_value :=
             RedirectMiddleware.redirects_of sample_rules school_site;
           entry_expires := Some 3600%Z |}]> ∅
  ∧ trace result.2
    = [CacheGet "default" "redirects-school.youngsphere.com";
       QueryRedirect 2;
       CacheSet "default" "redirects-school.youngsphere.com"]
  ∧ result.1 = Ok None.
Proof.
  pose proof (path_redirect_miss_stores_mapping main_site_settings sample_rules
                0 (request_for (Some school_site) "/about") empty_world
                school_site eq_refl eq_refl) as H.
  cbv zeta in H. destruct H as (Hcache & Htrace & Hpass).
  split_and!; [exact Hcache|exact Htrace|].
  apply Hpass. intros target. vm_compute. discriminate.
Defined.

Lemma path_redirect_answer_repeats_witness :
  let first :=
    RedirectMiddleware.path_redirect main_site_settings sample_rules 0
      (request_for (Some school_site) "/courses") empty_world in
  let second :=
    RedirectMiddleware.path_redirect main_site_settings [] 60
      (request_for (Some school_site) "/courses") first.2 in
  second.1 = first.1
  ∧ trace second.2
    = trace first.2 ++ [CacheGet "default" "redirects-school.youngsphere.com"]
  ∧ default_cache second.2 = default_cache first.2.
Proof.
  apply (path_redirect_answer_repeats main_site_settings sample_rules [] 0 60
           (request_for (Some school_site) "/courses") empty_world
           school_site).
  - reflexivity.
  - eexists. vm_compute. reflexivity.
Defined.

(** ** The leaderboard on the sample data *)


(** With the group filter the same request lists each user once. *)
Example sample_leaderboard_by_groups :
  generate_leaderboard sample_db "C" (Some 2%Z) (Some [])
    (Some [7%Z; 8%Z]) (Some [10%Z; 11%Z])
  = Ok [summary_entry sample_db summary_a; summary_entry sample_db summary_b].
Proof. reflexivity. Qed.

